(** * Bulk product import: [processProducts] of src/routes/productRoutes.js

    A shallow embedding of the spreadsheet import of the upload route: the
    header map built by the route handler ([columnMap]), the cell accessors
    ([getProductName], [getCategoryName], [getPrice], [getStock]), the row
    loop with its four validations and the insert, and the final
    commit / rollback decision inside the [try]/[catch]/[finally] of
    [processProducts].

    Conventions of the embedding.
    - JavaScript strings are Rocq strings; case mapping and white space are
      those of the ASCII range.
    - A JavaScript number is [NaN], an infinity, or a finite decimal
      [m * 10^e]: the decimal that the runtime prints for the double.  The
      rounding of a literal to binary64 is not represented, so a literal
      stands for itself.
    - A plain object used as a dictionary ([columnMap], [categoryMap], a
      sheet row) is a [gmap] over its own properties; the members inherited
      from [Object.prototype] are not represented.
    - The database client is an explicit session: a table of committed
      product rows and the rows written by the open transaction.  Whether
      one INSERT fails is decided by a parameter of the development
      ([insert_error]); a failed statement leaves the transaction open.

    After the import come its caller, the handler of the upload with the
    file filter of multer ([upload], [fileFilter]), and the routes that
    change the categories and the products ([create_category], ...,
    [delete_product]), each over a model of what it talks to. *)

From Stdlib Require Import ZArith String Ascii List Sorted DecimalString DecimalNat.
From stdpp Require Import gmap strings list fin_maps sorting.

Local Open Scope string_scope.

(** ** The JavaScript primitives the source calls *)

Module Js.

(** *** Strings *)

Definition code (c : ascii) : nat := nat_of_ascii c.

(** White space and line terminators of the ASCII range, as stripped by
    [String.prototype.trim]: TAB, LF, VT, FF, CR and SPACE. *)
Definition is_white (c : ascii) : bool :=
  ((9 <=? code c)%nat && (code c <=? 13)%nat) || (code c =? 32)%nat.

Definition is_digit (c : ascii) : bool :=
  (48 <=? code c)%nat && (code c <=? 57)%nat.

Definition is_upper (c : ascii) : bool :=
  (65 <=? code c)%nat && (code c <=? 90)%nat.

Definition lower_char (c : ascii) : ascii :=
  if is_upper c then ascii_of_nat (code c + 32) else c.

Fixpoint toLowerCase (s : string) : string :=
  match s with
  | EmptyString => EmptyString
  | String c r => String (lower_char c) (toLowerCase r)
  end.

Fixpoint trimStart (s : string) : string :=
  match s with
  | EmptyString => EmptyString
  | String c r => if is_white c then trimStart r else s
  end.

Fixpoint trimEnd (s : string) : string :=
  match s with
  | EmptyString => EmptyString
  | String c r =>
      match trimEnd r with
      | EmptyString => if is_white c then EmptyString else String c EmptyString
      | t => String c t
      end
  end.

Definition trim (s : string) : string := trimEnd (trimStart s).

(** [s.replace(/[^...]/g, '')]: every character outside the class goes. *)
Fixpoint keep (cls : ascii -> bool) (s : string) : string :=
  match s with
  | EmptyString => EmptyString
  | String c r => if cls c then String c (keep cls r) else keep cls r
  end.

(** [arr.join(sep)] *)
Definition join (sep : string) (l : list string) : string := String.concat sep l.

(** the text of a natural number inside a template literal *)
Definition show_nat (n : nat) : string := NilZero.string_of_uint (Nat.to_uint n).

(** *** Numbers *)

Inductive number : Type :=
  | NaN
  | Infinity (negative : bool)
  | Finite (m : Z) (e : Z).

Definition of_nat (n : nat) : number := Finite (Z.of_nat n) 0.

Definition isNaN (x : number) : bool :=
  match x with NaN => true | _ => false end.

(** [x <= 0] and [x < 0]; every comparison with NaN is false. *)
Definition le0 (x : number) : bool :=
  match x with
  | NaN => false
  | Infinity neg => neg
  | Finite m _ => (m <=? 0)%Z
  end.

Definition lt0 (x : number) : bool :=
  match x with
  | NaN => false
  | Infinity neg => neg
  | Finite m _ => (m <? 0)%Z
  end.

Definition is_zero (x : number) : bool :=
  match x with Finite m _ => (m =? 0)%Z | _ => false end.

(** Splitting off the longest prefix of characters of a class. *)
Fixpoint span (cls : ascii -> bool) (s : string) : string * string :=
  match s with
  | EmptyString => (EmptyString, EmptyString)
  | String c r =>
      if cls c then let '(a, b) := span cls r in (String c a, b)
      else (EmptyString, s)
  end.

Definition digit_val (c : ascii) : Z := Z.of_nat (code c - 48).

Fixpoint digits_val (acc : Z) (s : string) : Z :=
  match s with
  | EmptyString => acc
  | String c r => digits_val (acc * 10 + digit_val c) r
  end.

Definition signed (neg : bool) (z : Z) : Z := if neg then (- z)%Z else z.

(** An optional sign in front of a numeric literal. *)
Definition take_sign (s : string) : bool * string :=
  match s with
  | String "-" r => (true, r)
  | String "+" r => (false, r)
  | _ => (false, s)
  end.

(** The exponent part of a decimal literal, [0] when there is none (an [e]
    that no digit follows is not part of the literal). *)
Definition exponent (s : string) : Z :=
  match s with
  | String c r =>
      if (code c =? 101)%nat || (code c =? 69)%nat then
        let '(neg, r') := take_sign r in
        let '(ds, _) := span is_digit r' in
        match ds with
        | EmptyString => 0%Z
        | _ => signed neg (digits_val 0 ds)
        end
      else 0%Z
  | EmptyString => 0%Z
  end.

(** [parseFloat]: leading white space is skipped, then the longest prefix
    that is a decimal literal is read; [NaN] when there is none. *)
Definition parseFloat (s : string) : number :=
  let '(neg, s1) := take_sign (trimStart s) in
  if String.prefix "Infinity" s1 then Infinity neg
  else
    let '(ip, r1) := span is_digit s1 in
    let '(fp, r2) :=
      match r1 with
      | String "." r => span is_digit r
      | _ => (EmptyString, r1)
      end in
    match ip, fp with
    | EmptyString, EmptyString => NaN
    | _, _ =>
        Finite (signed neg (digits_val 0 (ip ++ fp)))
               (exponent r2 - Z.of_nat (String.length fp))
    end.

Definition is_hex (c : ascii) : bool :=
  is_digit c || ((97 <=? code c)%nat && (code c <=? 102)%nat)
             || ((65 <=? code c)%nat && (code c <=? 70)%nat).

Definition hex_val (c : ascii) : Z :=
  if is_digit c then digit_val c
  else if (97 <=? code c)%nat then Z.of_nat (code c - 87)
  else Z.of_nat (code c - 55).

Fixpoint hex_digits_val (acc : Z) (s : string) : Z :=
  match s with
  | EmptyString => acc
  | String c r => hex_digits_val (acc * 16 + hex_val c) r
  end.

(** [parseInt] without a radix: radix 16 after [0x] or [0X], else 10; the
    longest prefix of digits is read; [NaN] when there is none. *)
Definition parseInt (s : string) : number :=
  let '(neg, s1) := take_sign (trimStart s) in
  match s1 with
  | String "0" (String x r) =>
      if (code x =? 120)%nat || (code x =? 88)%nat then
        match fst (span is_hex r) with
        | EmptyString => NaN
        | ds => Finite (signed neg (hex_digits_val 0 ds)) 0
        end
      else Finite (signed neg (digits_val 0 (fst (span is_digit s1)))) 0
  | _ =>
      match fst (span is_digit s1) with
      | EmptyString => NaN
      | ds => Finite (signed neg (digits_val 0 ds)) 0
      end
  end.

(** [Number::toString]: the decimal digits [s] of the number without
    trailing zeros, their count [k], and the position [n] of the decimal
    point ([x = 0.s * 10^n]) select plain or exponent notation. *)
Fixpoint strip_zeros (rev_digits : list ascii) (e : Z) : list ascii * Z :=
  match rev_digits with
  | c :: r => if (code c =? 48)%nat then strip_zeros r (e + 1) else (rev_digits, e)
  | [] => ([], e)
  end.

Definition zeros (n : nat) : string := string_of_list_ascii (repeat "0"%char n).

Definition show_Z (z : Z) : string :=
  match z with
  | Z0 => "0"
  | Zpos p => NilEmpty.string_of_uint (Pos.to_uint p)
  | Zneg p => "-" ++ NilEmpty.string_of_uint (Pos.to_uint p)
  end.

Definition show_positive (p : positive) (e : Z) : string :=
  let all := list_ascii_of_string (NilEmpty.string_of_uint (Pos.to_uint p)) in
  let '(rs, e') := strip_zeros (rev all) e in
  let s := rev rs in
  let k := Z.of_nat (length s) in
  let n := (k + e')%Z in
  if ((k <=? n) && (n <=? 21))%Z then
    string_of_list_ascii s ++ zeros (Z.to_nat (n - k))
  else if ((0 <? n) && (n <=? 21))%Z then
    string_of_list_ascii (take (Z.to_nat n) s) ++ "." ++
    string_of_list_ascii (drop (Z.to_nat n) s)
  else if ((-6 <? n) && (n <=? 0))%Z then
    "0." ++ zeros (Z.to_nat (- n)) ++ string_of_list_ascii s
  else
    let ex := (n - 1)%Z in
    let tail := "e" ++ (if (ex <? 0)%Z then "-" else "+") ++ show_Z (Z.abs ex) in
    match s with
    | [c] => String c tail
    | c :: r => String c ("." ++ string_of_list_ascii r ++ tail)
    | [] => tail
    end.

Definition number_toString (x : number) : string :=
  match x with
  | NaN => "NaN"
  | Infinity neg => if neg then "-Infinity" else "Infinity"
  | Finite Z0 _ => "0"
  | Finite (Zpos p) e => show_positive p e
  | Finite (Zneg p) e => "-" ++ show_positive p e
  end.

(** *** Cell values

    What [xlsx.utils.sheet_to_json] puts in a row: nothing (the key is
    absent, [undefined] on access), a number, a string, a boolean, or a
    [Date] (the workbook is read with [cellDates]).  A [Date] is kept as the
    text that [String] gives for it. *)
Inductive value : Type :=
  | Undefined
  | Null
  | Bool (b : bool)
  | Num (x : number)
  | Str (s : string)
  | Date (text : string).

Definition truthy (v : value) : bool :=
  match v with
  | Undefined | Null => false
  | Bool b => b
  | Num x => negb (isNaN x || is_zero x)
  | Str s => negb (String.eqb s "")
  | Date _ => true
  end.

(** [a || b] *)
Definition or (a b : value) : value := if truthy a then a else b.

(** [String(v)] *)
Definition toString (v : value) : string :=
  match v with
  | Undefined => "undefined"
  | Null => "null"
  | Bool b => if b then "true" else "false"
  | Num x => number_toString x
  | Str s => s
  | Date text => text
  end.

(** [typeof v === 'number'] *)
Definition is_number (v : value) : bool :=
  match v with Num _ => true | _ => false end.

(** [obj[key]] where the key itself came out of a lookup: an [undefined]
    key is the property name ["undefined"]; an absent property reads as
    [undefined]. *)
Definition property_key (k : option string) : string := default "undefined" k.

Definition get (obj : gmap string value) (k : option string) : value :=
  default Undefined (obj !! property_key k).

End Js.

(** *** Values handed back to the route

    [processProducts] either returns an object literal, which the route
    passes to [res.json], or throws [new Error(message)]. *)
#[local] Unset Elimination Schemes.
Inductive json : Type :=
  | JBool (b : bool)
  | JNumber (x : Js.number)
  | JString (s : string)
  | JArray (items : list json)
  | JObject (fields : list (string * json)).
#[local] Set Elimination Schemes.

Definition field (k : string) (obj : list (string * json)) : option json :=
  snd <$> find (fun kv => String.eqb (fst kv) k) obj.

Inductive completion : Type :=
  | Return (report : list (string * json))
  | Throw (message : string).

(** ** The database client *)

Module Db.

(** The parameters of one
    [INSERT INTO products (product_name, category_id, price, stock)]. *)
Record row : Type := Row {
  product_name : string;
  category_id : Z;
  price : Js.number;
  stock : Js.number
}.

(** A client taken from the pool: the committed [products] table and, while
    a transaction is open, the rows it has written so far. *)
Record session : Type := Session {
  table : list row;
  txn : option (list row)
}.

Definition connect (t : list row) : session := Session t None.

(** the rows a statement of this session sees *)
Definition visible (c : session) : list row :=
  (table c ++ default [] (txn c))%list.

(** [BEGIN]; inside a transaction it only warns. *)
Definition begin (c : session) : session :=
  match txn c with
  | None => Session (table c) (Some [])
  | Some _ => c
  end.

(** [COMMIT]; without a transaction it only warns. *)
Definition commit (c : session) : session :=
  match txn c with
  | Some written => Session (table c ++ written)%list None
  | None => c
  end.

(** [ROLLBACK]; without a transaction it only warns. *)
Definition rollback (c : session) : session := Session (table c) None.

Section Insert.

(** The message of the error the database raises for this INSERT given the
    rows it sees (a constraint violation, say), or [None] when it accepts. *)
Variable insert_error : list row -> row -> option string.

Definition insert (c : session) (r : row) : session * option string :=
  match insert_error (visible c) r with
  | Some message => (c, Some message)
  | None =>
      match txn c with
      | Some written => (Session (table c) (Some (written ++ [r])%list), None)
      | None => (Session (table c ++ [r])%list None, None)
      end
  end.

End Insert.

End Db.

(** ** The upload route *)

(** a row of [SELECT * FROM category] *)
Record category : Type := Category {
  category_id : Z;
  category_name : string
}.

(** What the import does, in order: the statements sent to the client and
    the row the loop has reached (its [Processing row] log line). *)
Inductive event : Type :=
  | Begin
  | SelectCategories
  | ProcessingRow (rowNum : nat)
  | Insert (r : Db.row) (accepted : bool)
  | Commit
  | Rollback
  | Release.

(** The [columnMap] of the route handler: every column of the first row,
    keyed by its trimmed, lowercased name. *)
Definition colTrimmed (col : string) : string := Js.toLowerCase (Js.trim col).

Definition columnMap (availableColumns : list string) : gmap string string :=
  foldl (fun m col => <[colTrimmed col := col]> m) ∅ availableColumns.

Definition dquote : string := String "034"%char EmptyString.

Definition requiredFields : list string :=
  ["product_name"; "category_name"; "price"; "stock"].

(** [!columnMap[field]] *)
Definition column_missing (columnMap : gmap string string) (field : string) : bool :=
  match columnMap !! field with
  | Some col => String.eqb col ""
  | None => true
  end.

Definition missingFields (columnMap : gmap string string) : list string :=
  List.filter (column_missing columnMap) requiredFields.

Definition categoryMap (categories : list category) : gmap string Z :=
  foldl (fun m cat => <[Js.toLowerCase (category_name cat) := category_id cat]> m)
        ∅ categories.

(** [categoryMap[name]] when it is truthy *)
Definition resolve (categoryMap : gmap string Z) (name : string) : option Z :=
  match categoryMap !! name with
  | Some id => if (id =? 0)%Z then None else Some id
  | None => None
  end.

Definition price_class (c : ascii) : bool :=
  Js.is_digit c || (Js.code c =? 46)%nat || (Js.code c =? 45)%nat.

Definition stock_class (c : ascii) : bool :=
  Js.is_digit c || (Js.code c =? 45)%nat.

(** [text || '0'] on strings *)
Definition or_zero (text : string) : string :=
  if String.eqb text "" then "0" else text.

Section Accessors.

Variable columnMap : gmap string string.

Definition getProductName (product : gmap string Js.value) : string :=
  Js.trim (Js.toString
    (Js.or (Js.get product (columnMap !! "product_name")) (Js.Str ""))).

Definition getCategoryName (product : gmap string Js.value) : string :=
  Js.trim (Js.toString
    (Js.or (Js.get product (columnMap !! "category_name")) (Js.Str ""))).

Definition getPrice (product : gmap string Js.value) : Js.number :=
  let priceRaw := Js.get product (columnMap !! "price") in
  match priceRaw with
  | Js.Num x => x
  | _ => Js.parseFloat (or_zero (Js.keep price_class (Js.toString priceRaw)))
  end.

Definition getStock (product : gmap string Js.value) : Js.number :=
  let stockRaw := Js.get product (columnMap !! "stock") in
  match stockRaw with
  | Js.Num x => x
  | _ => Js.parseInt (or_zero (Js.keep stock_class (Js.toString stockRaw)))
  end.

End Accessors.

(** The locals of [processProducts] that change while it runs. *)
Record state : Type := State {
  client : Db.session;
  errors : list string;
  processedCount : nat;
  trace : list event
}.

Definition log (ev : event) (st : state) : state :=
  State (client st) (errors st) (processedCount st) (trace st ++ [ev])%list.

(** [errors.push(text)] *)
Definition push (text : string) (st : state) : state :=
  State (client st) (errors st ++ [text])%list (processedCount st) (trace st).

(** the text [Row ${rowNum}: ${reason}] of every row error *)
Definition row_error (rowNum : nat) (reason : string) : string :=
  "Row " ++ Js.show_nat rowNum ++ ": " ++ reason.

Definition missing_name : string := "Missing product_name or category_name".
Definition bad_price : string := "Price must be a number greater than 0".
Definition bad_stock : string :=
  "Stock must be a number greater than or equal to 0".

Definition names (categories : list category) : string :=
  Js.join ", " (map category_name categories).

Definition no_category (categories : list category) (categoryName : string) : string :=
  "Category " ++ dquote ++ categoryName ++ dquote ++
  " does not exist. Available categories: " ++ names categories.

Definition database_error (message : string) : string :=
  "Database error: " ++ message.

(** [await client.query('COMMIT')] and [await client.query('ROLLBACK')] *)
Definition query_commit (st : state) : state :=
  log Commit (State (Db.commit (client st)) (errors st) (processedCount st) (trace st)).

Definition query_rollback (st : state) : state :=
  log Rollback (State (Db.rollback (client st)) (errors st) (processedCount st) (trace st)).

Section Coordinator.

Variable insert_error : list Db.row -> Db.row -> option string.

(** The [try { INSERT; processedCount++ } catch { errors.push }] of a row
    that passed the validations. *)
Definition insert_product (rowNum : nat) (r : Db.row) (st : state) : state :=
  match Db.insert insert_error (client st) r with
  | (c, None) =>
      log (Insert r true)
        (State c (errors st) (S (processedCount st)) (trace st))
  | (c, Some message) =>
      push (row_error rowNum (database_error message))
        (log (Insert r false)
          (State c (errors st) (processedCount st) (trace st)))
  end.

Section Rows.

Variable categories : list category.
Variable columnMap : gmap string string.

(** One turn of the [for] loop, for the product at index [i]. *)
Definition process_row (i : nat) (product : gmap string Js.value) (st : state) : state :=
  let rowNum := i + 2 in
  let productName := getProductName columnMap product in
  let categoryName := getCategoryName columnMap product in
  let price := getPrice columnMap product in
  let stock := getStock columnMap product in
  let st := log (ProcessingRow rowNum) st in
  if String.eqb productName "" || String.eqb categoryName "" then
    push (row_error rowNum missing_name) st
  else if Js.isNaN price || Js.le0 price then
    push (row_error rowNum bad_price) st
  else if Js.isNaN stock || Js.lt0 stock then
    push (row_error rowNum bad_stock) st
  else
    let categoryNameLower := Js.toLowerCase categoryName in
    match resolve (categoryMap categories) categoryNameLower with
    | None => push (row_error rowNum (no_category categories categoryName)) st
    | Some categoryId =>
        insert_product rowNum (Db.Row productName categoryId price stock) st
    end.

(** [for (let i = ...; i < products.length; i++)], entered at index [i]
    with the products from there on. *)
Fixpoint process_rows (i : nat) (products : list (gmap string Js.value)) (st : state) : state :=
  match products with
  | [] => st
  | product :: rest => process_rows (S i) rest (process_row i product st)
  end.

Definition no_categories_message : string :=
  "No categories found in the database. Please add categories first.".

Definition missing_columns_message (missing : list string) : string :=
  "Missing required columns: " ++ Js.join ", " missing ++
  ". Please ensure your Excel has these exact columns (spaces are trimmed).".

Definition partial_message (processed : nat) (errs : list string) : string :=
  "Uploaded " ++ Js.show_nat processed ++ " products with " ++
  Js.show_nat (length errs) ++ " errors: " ++ Js.join "; " errs.

Definition no_valid_message (errs : list string) : string :=
  "No valid products found. Errors: " ++ Js.join "; " errs.

Definition success_report (processed : nat) : list (string * json) :=
  [("success", JBool true);
   ("message", JString ("Successfully uploaded " ++ Js.show_nat processed ++ " products"))].

(** The three-way decision after the loop. *)
Definition decide_outcome (products : list (gmap string Js.value)) (st : state)
  : completion * state :=
  if (0 <? length (errors st))%nat && (0 <? processedCount st)%nat then
    (Throw (partial_message (processedCount st) (errors st)), query_commit st)
  else if (length products =? length (errors st))%nat then
    (Throw (no_valid_message (errors st)), query_rollback st)
  else
    (Return (success_report (processedCount st)), query_commit st).

(** The body of the [try]. *)
Definition try_block (c : Db.session) (products : list (gmap string Js.value))
  : completion * state :=
  let st := log Begin (State (Db.begin c) [] 0 []) in
  let st := log SelectCategories st in
  match categories with
  | [] => (Throw no_categories_message, st)
  | _ :: _ =>
      let missing := missingFields columnMap in
      if (0 <? length missing)%nat then
        (Throw (missing_columns_message missing), st)
      else decide_outcome products (process_rows 0 products st)
  end.

(** What a call leaves behind: how it completed, the [products] table once
    the client is released, and everything it did. *)
Record run : Type := Run {
  outcome : completion;
  store : list Db.row;
  events : list event
}.

(** [processProducts(products, columnMap)] on a database whose [products]
    table holds [table] and whose [category] table holds [categories]. *)
Definition processProducts (table : list Db.row)
    (products : list (gmap string Js.value)) : run :=
  let '(result, st) := try_block (Db.connect table) products in
  let st :=
    match result with
    | Throw _ => query_rollback st
    | Return _ => st
    end in
  let st := log Release st in
  Run result (Db.table (client st)) (trace st).

End Rows.

End Coordinator.

(** ** Observing a run *)

(** the rows whose INSERT the database accepted, in order *)
Fixpoint accepted (evs : list event) : list Db.row :=
  match evs with
  | [] => []
  | Insert r true :: rest => r :: accepted rest
  | _ :: rest => accepted rest
  end.

(** the rows the loop reached, by display number *)
Fixpoint reached (evs : list event) : list nat :=
  match evs with
  | [] => []
  | ProcessingRow n :: rest => n :: reached rest
  | _ :: rest => reached rest
  end.

(** The state in which the loop is entered: a transaction is open on
    [table], nothing is written, no error, no product counted. *)
Definition entry (table : list Db.row) : state :=
  State (Db.Session table (Some [])) [] 0 [Begin; SelectCategories].

(** [s] occurs inside [text] *)
Definition occurs (s text : string) : Prop :=
  exists before after, text = before ++ s ++ after.

(** the text of the error of the data row at index [f.1], with its display
    number *)
Definition numbered (f : nat * string) : string := row_error (f.1 + 2) f.2.

Section Turns.

Variable insert_error : list Db.row -> Db.row -> option string.
Variable categories : list category.
Variable columnMap : gmap string string.

Abbreviation step := (process_row insert_error categories columnMap).

(** the turn for [product] adds a row error *)
Definition adds_error (i : nat) (product : gmap string Js.value) (st : state) : Prop :=
  length (errors (step i product st)) = S (length (errors st)).

(** the turn for [product] inserts the product *)
Definition inserts (i : nat) (product : gmap string Js.value) (st : state) : Prop :=
  processedCount (step i product st) = S (processedCount st).

(** [P] holds of every turn of the loop, each taken in the state the loop
    has reached by then. *)
Fixpoint every_turn (P : nat -> gmap string Js.value -> state -> Prop)
    (i : nat) (products : list (gmap string Js.value)) (st : state) : Prop :=
  match products with
  | [] => True
  | product :: rest => P i product st /\ every_turn P (S i) rest (step i product st)
  end.

(** [P] holds of some turn of the loop. *)
Fixpoint some_turn (P : nat -> gmap string Js.value -> state -> Prop)
    (i : nat) (products : list (gmap string Js.value)) (st : state) : Prop :=
  match products with
  | [] => False
  | product :: rest => P i product st \/ some_turn P (S i) rest (step i product st)
  end.

(** What one turn does to the state: it adds one row error and writes
    nothing, or it writes one row and adds no error. *)
Inductive turn (i : nat) (st st' : state) : Prop :=
  | turn_error (reason : string) :
      errors st' = (errors st ++ [row_error (i + 2) reason])%list ->
      processedCount st' = processedCount st ->
      client st' = client st ->
      accepted (trace st') = accepted (trace st) ->
      turn i st st'
  | turn_insert (r : Db.row) (written : list Db.row) :
      Db.txn (client st) = Some written ->
      client st' = Db.Session (Db.table (client st)) (Some (written ++ [r])%list) ->
      errors st' = errors st ->
      processedCount st' = S (processedCount st) ->
      accepted (trace st') = (accepted (trace st) ++ [r])%list ->
      turn i st st'.

End Turns.

(** ** Notions used in the statements *)

(** the required keys that no column of the sheet is named after *)
Definition absent (headers : list string) : list string :=
  List.filter (fun field => bool_decide (field ∉ colTrimmed <$> headers))
              requiredFields.

(** What the text of a numeric cell is reduced to, in the words of the
    description: only the characters of [chars] stay. *)
Definition stripped (chars : string) (text : string) : string :=
  string_of_list_ascii
    (filter (fun c => c ∈ list_ascii_of_string chars) (list_ascii_of_string text)).

Definition price_chars : string := "0123456789.-".
Definition stock_chars : string := "0123456789-".

(** A report from which a caller reads off a success flag, the processed
    count, the list of row errors and a summary text: each is the value of
    one of its fields. *)
Definition surfaces (report : list (string * json)) (success : bool)
    (count : nat) (row_errors : list json) (summary : string) : Prop :=
  (exists k, field k report = Some (JBool success)) /\
  (exists k, field k report = Some (JNumber (Js.of_nat count))) /\
  (exists k, field k report = Some (JArray row_errors)) /\
  (exists k, field k report = Some (JString summary)).

(** ** A small sheet to run the import on *)

Definition sample_categories : list category := [Category 1 "Tools"].

Definition sample_headers : list string :=
  [" Product_Name"; "Category_Name "; "PRICE"; "stock"].

Definition sample_row (name cat price stock : Js.value) : gmap string Js.value :=
  list_to_map
    [(" Product_Name", name); ("Category_Name ", cat); ("PRICE", price); ("stock", stock)].

Definition widget : gmap string Js.value :=
  sample_row (Js.Str "Widget") (Js.Str "tools") (Js.Str "$9.99") (Js.Num (Js.Finite 5 0)).

Definition gadget : gmap string Js.value :=
  sample_row (Js.Str " Gadget ") (Js.Str "Tools") (Js.Str "-1") (Js.Str "3").

Definition radio : gmap string Js.value :=
  sample_row (Js.Str "Radio") (Js.Str "Electronics") (Js.Str "12.50") (Js.Str "7 pcs").

Definition accept_all : list Db.row -> Db.row -> option string :=
  fun _ _ => None.

(** a unique index on the product name *)
Definition unique_name (seen : list Db.row) (r : Db.row) : option string :=
  if existsb (fun r' => String.eqb (Db.product_name r') (Db.product_name r)) seen
  then Some "duplicate key value violates unique constraint"
  else None.

(** ** More ways of observing a run *)

(** every INSERT the loop sent, accepted or not, in order *)
Fixpoint sent (evs : list event) : list Db.row :=
  match evs with
  | [] => []
  | Insert r _ :: rest => r :: sent rest
  | _ :: rest => sent rest
  end.

(** the events of the loop: a row is reached, an INSERT is sent *)
Definition loop_event (ev : event) : bool :=
  match ev with
  | ProcessingRow _ | Insert _ _ => true
  | _ => false
  end.

(** What the validations of the loop establish of a row before its INSERT
    is sent. *)
Definition validated (categories : list category) (r : Db.row) : Prop :=
  Db.product_name r ≠ "" /\
  Js.trim (Db.product_name r) = Db.product_name r /\
  Js.isNaN (Db.price r) = false /\ Js.le0 (Db.price r) = false /\
  Js.isNaN (Db.stock r) = false /\ Js.lt0 (Db.stock r) = false /\
  Db.category_id r ≠ 0%Z /\
  exists cat, cat ∈ categories /\ category_id cat = Db.category_id r.

(** how the statements of a call end, before the client is released *)
Definition endings : list (list event) :=
  [[Rollback]; [Commit]; [Commit; Rollback]; [Rollback; Rollback]].

(** ** The file filter of the upload *)

Definition xlsx_mimetype : string :=
  "application/vnd.openxmlformats-officedocument.spreadsheetml.sheet".

(** [name.split('.')] *)
Fixpoint split_dot (name : string) : list string :=
  match name with
  | EmptyString => [EmptyString]
  | String c r =>
      if (Js.code c =? 46)%nat then EmptyString :: split_dot r
      else
        match split_dot r with
        | seg :: rest => String c seg :: rest
        | [] => [String c EmptyString]
        end
  end.

(** The [fileFilter] of multer: the error it passes to the callback, or
    [None] when it lets the file in.  [pop()] is the last element. *)
Definition fileFilter (mimetype originalname : string) : option string :=
  if negb (String.eqb mimetype xlsx_mimetype)
     && negb (bool_decide (last (split_dot originalname) = Some "xlsx"))
  then Some "Only .xlsx files are allowed!"
  else None.

(** ** The handler of the upload

    The workbook library and the file system are outside the source.  A
    file is known by what [xlsx.readFile] makes of it, a sheet by its
    [!ref] and by what [sheet_to_json] makes of it; a data row is the list
    of its properties in the order of their creation, no key twice. *)

Record worksheet : Type := Worksheet {
  ref : option string;
  sheet_to_json : string + list (list (string * Js.value))
}.

Record workbook : Type := Workbook {
  SheetNames : list string;
  Sheets : gmap string worksheet
}.

(** the message of the error that [fs] throws for a path that is not there *)
Definition enoent (syscall path : string) : string :=
  "ENOENT: no such file or directory, " ++ syscall ++ " '" ++ path ++ "'".

(** The files there are, each with the workbook that [xlsx.readFile] reads
    from it or the message of the error it throws; the products table; the
    statements sent so far. *)
Record world : Type := World {
  files : gmap string (string + workbook);
  products_table : list Db.row;
  statements : list event
}.

Record response : Type := Response {
  status : nat;
  body : list (string * json)
}.

(** [res.status(code).json({ error: message })] *)
Definition error_response (code : nat) (message : string) : response :=
  Response code [("error", JString message)].

(** A computation over the world that returns or throws a message. *)
Definition action (A : Type) : Type := world -> (string + A) * world.

Definition ret {A : Type} (a : A) : action A := fun w => (inr a, w).

Definition throw {A : Type} (message : string) : action A := fun w => (inl message, w).

Definition bind {A B : Type} (m : action A) (k : A -> action B) : action B :=
  fun w =>
    match m w with
    | (inr a, w') => k a w'
    | (inl message, w') => (inl message, w')
    end.

(** [try { m } catch (err) { handler(err.message) }] *)
Definition try_catch {A : Type} (m : action A) (handler : string -> action A) : action A :=
  fun w =>
    match m w with
    | (inr a, w') => (inr a, w')
    | (inl message, w') => handler message w'
    end.

Declare Scope action_scope.
Delimit Scope action_scope with action.
Notation "'let*' x ':=' m 'in' k" := (bind m (fun x => k))
  (at level 10, x binder, m at level 100, k at level 200) : action_scope.
Notation "'do' m 'then' k" := (bind m (fun _ => k))
  (at level 10, m at level 100, k at level 200) : action_scope.

(** [xlsx.readFile(filePath, ...)] *)
Definition readFile (filePath : string) : action workbook :=
  fun w =>
    match files w !! filePath with
    | Some (inr wb) => (inr wb, w)
    | Some (inl message) => (inl message, w)
    | None => (inl (enoent "open" filePath), w)
    end.

(** [fs.unlinkSync(filePath)] *)
Definition unlinkSync (filePath : string) : action unit :=
  fun w =>
    match files w !! filePath with
    | Some _ =>
        (inr tt, World (delete filePath (files w)) (products_table w) (statements w))
    | None => (inl (enoent "unlink" filePath), w)
    end.

(** [fs.existsSync(filePath)] *)
Definition existsSync (filePath : string) : action bool :=
  fun w => (inr (bool_decide (is_Some (files w !! filePath))), w).

(** the own properties of a row, for the accessors of the import *)
Definition properties (obj : list (string * Js.value)) : gmap string Js.value :=
  list_to_map obj.

(** An array index: the decimal text, without sign or leading zero, of a
    number below [2^32 - 1]. *)
Definition array_index (key : string) : option N :=
  let n := Z.to_N (Js.digits_val 0 key) in
  if bool_decide (Forall (fun c => Js.is_digit c = true) (list_ascii_of_string key))
     && String.eqb (NilZero.string_of_uint (N.to_uint n)) key
     && (n <? 4294967295)%N
  then Some n else None.

Definition index_le (a b : N * string) : Prop := (a.1 <= b.1)%N.

#[global] Instance index_le_dec : RelDecision index_le.
Proof. intros a b. unfold index_le. apply _. Defined.

(** [Object.keys(obj)]: the array indices in ascending order, then the
    other keys in the order of their creation. *)
Definition Object_keys (obj : list (string * Js.value)) : list string :=
  let keys := obj.*1 in
  let indexed := omap (fun k => (fun n => (n, k)) <$> array_index k) keys in
  ((merge_sort index_le indexed).*2
   ++ filter (fun k => array_index k = None) keys)%list.

Section Upload.

Variable insert_error : list Db.row -> Db.row -> option string.
Variable categories : list category.

(** [await processProducts(productData, columnMap)] on the database of the
    world. *)
Definition call_processProducts (productData : list (list (string * Js.value)))
    (columnMap : gmap string string) : action (list (string * json)) :=
  fun w =>
    let r := processProducts insert_error categories columnMap (products_table w)
               (properties <$> productData) in
    let w' := World (files w) (store r) (statements w ++ events r) in
    match outcome r with
    | Return report => (inr report, w')
    | Throw message => (inl message, w')
    end.

(** The handler of [POST /] once multer has run: [file] is the path of the
    stored file as the handler resolves it, [None] without [req.file]. *)
Definition upload (file : option string) : action response :=
  match file with
  | None => ret (error_response 400 "No file uploaded or file type not allowed")
  | Some filePath =>
      try_catch
        (let* workbook := readFile filePath in
         if negb (bool_decide ("Products" ∈ SheetNames workbook)) then
           do unlinkSync filePath then
           ret (error_response 400
                  ("Excel file must contain a sheet named exactly "
                     ++ dquote ++ "Products" ++ dquote ++ " (case-sensitive)"))
         else
           match Sheets workbook !! "Products" with
           | Some (Worksheet (Some (String _ _)) json) =>
               let* parsed :=
                 try_catch
                   (match json with
                    | inr productData => ret (inr productData)
                    | inl message => throw message
                    end)
                   (fun message =>
                      do unlinkSync filePath then
                      ret (inl (error_response 400
                                  ("Failed to parse Excel sheet: " ++ message)))) in
               match parsed with
               | inl early => ret early
               | inr [] =>
                   do unlinkSync filePath then
                   ret (error_response 400 "No data found in Products sheet")
               | inr ((firstRow :: _) as productData) =>
                   let availableColumns := Object_keys firstRow in
                   try_catch
                     (let* result := call_processProducts productData
                                       (columnMap availableColumns) in
                      do unlinkSync filePath then
                      ret (Response 200 result))
                     (fun message =>
                        do unlinkSync filePath then
                        ret (error_response 400 message))
               end
           | _ =>
               do unlinkSync filePath then
               ret (error_response 400
                      "Products sheet is empty or has invalid structure")
           end)%action
        (fun message =>
           (let* there := existsSync filePath in
            do (if there then unlinkSync filePath else ret tt) then
            ret (error_response 500 ("Error processing Excel file: " ++ message)))%action)
  end.

End Upload.

(** The stored file holds a workbook whose sheet [Products] has a range and
    parses to these data rows, of which there is at least one. *)
Definition has_data (w : world) (filePath : string)
    (productData : list (list (string * Js.value))) : Prop :=
  exists wb c range,
    files w !! filePath = Some (inr wb) /\
    "Products" ∈ SheetNames wb /\
    Sheets wb !! "Products"
      = Some (Worksheet (Some (String c range)) (inr productData)) /\
    productData ≠ [].

(** the response of the route to what [processProducts] did *)
Definition respond (result : completion) : response :=
  match result with
  | Return report => Response 200 report
  | Throw message => error_response 400 message
  end.

(** the import that the handler runs on the data rows of a sheet, with the
    columns of the first row *)
Definition import_of (insert_error : list Db.row -> Db.row -> option string)
    (categories : list category) (w : world)
    (productData : list (list (string * Js.value))) : run :=
  processProducts insert_error categories
    (columnMap (Object_keys (default [] (head productData))))
    (products_table w) (properties <$> productData).

(** ** The routes of the categories and of the products

    The handlers of src/routes/categoryRoutes.js and the first five routes
    of src/routes/productRoutes.js talk to the database through
    [pool.query], one statement at a time.  The database is a model here:
    two tables, each statement of the source with its SQL meaning.  What the
    source does not fix is a parameter ([engine]): how the database reads a
    text parameter as an integer, which identifier a new row gets, and
    whether it refuses a write; a SELECT fails only on a parameter that it
    cannot read.  A handler runs alone, from its first statement to its
    answer; an UPDATE gives every row of the identifier the new values, and
    its first returned row is the one that is sent. *)

Module Req.

(** A field of the JSON body of a request, or its absence; arrays and
    objects are left out. *)
Inductive field : Type :=
  | Absent
  | Null
  | Bool (b : bool)
  | Num (x : Js.number)
  | Str (s : string).

Definition value (f : field) : Js.value :=
  match f with
  | Absent => Js.Undefined
  | Null => Js.Null
  | Bool b => Js.Bool b
  | Num x => Js.Num x
  | Str s => Js.Str s
  end.

Definition truthy (f : field) : bool := Js.truthy (value f).

(** [String(f)], as [parseFloat] and [parseInt] read their argument *)
Definition text (f : field) : string := Js.toString (value f).

(** The parameter that the driver sends for the field: NULL for [null] and
    [undefined], else its text. *)
Definition param (f : field) : option string :=
  match f with
  | Absent | Null => None
  | _ => Some (text f)
  end.

(** [f || null] *)
Definition or_null (f : field) : field := if truthy f then f else Null.

(** [f === undefined] *)
Definition is_undefined (f : field) : bool :=
  match f with Absent => true | _ => false end.

End Req.

Module Shop.

Record category : Type := Category {
  category_id : Z;
  category_name : string;
  description : option string
}.

Record product : Type := Product {
  product_id : Z;
  product_name : string;
  product_category : Z;
  price : option string;
  stock : option string
}.

Record database : Type := Database {
  categories : list category;
  products : list product
}.

(** What the source leaves to the database. *)
Record engine : Type := Engine {
  read_integer : string -> string + Z;
  next_category_id : database -> Z;
  next_product_id : database -> Z;
  category_refused : database -> category -> option string;
  category_update_refused : database -> category -> option string;
  product_refused : database -> product -> option string;
  product_update_refused : database -> product -> option string;
  category_delete_refused : database -> Z -> option string;
  product_delete_refused : database -> Z -> option string
}.

(** what a handler passes to [res.json] *)
Inductive payload : Type :=
  | Failure (error : string)
  | CategoryRow (row : category)
  | ProductRow (row : product)
  | Deleted (changes : nat).

Record reply : Type := Reply {
  code : nat;
  sent : payload
}.

End Shop.

(** [x > 0] *)
Definition gt0 (x : Js.number) : bool :=
  match x with
  | Js.NaN => false
  | Js.Infinity neg => negb neg
  | Js.Finite m _ => (0 <? m)%Z
  end.

Section Routes.

Variable db_engine : Shop.engine.

(** [catch (err) { res.status(500).json({ error: err.message }) }] around a
    statement that may fail *)
Definition guarded {A : Type} (result : string + A) (db : Shop.database)
    (k : A -> Shop.reply * Shop.database) : Shop.reply * Shop.database :=
  match result with
  | inl message => (Shop.Reply 500 (Shop.Failure message), db)
  | inr a => k a
  end.

Definition refuse (code : nat) (error : string) (db : Shop.database)
  : Shop.reply * Shop.database :=
  (Shop.Reply code (Shop.Failure error), db).

(** [SELECT * FROM category WHERE category_id = $1] *)
Definition category_by_id (db : Shop.database) (id : Z) : list Shop.category :=
  filter (fun c => Shop.category_id c = id) (Shop.categories db).

(** [SELECT * FROM category WHERE LOWER(category_name) = LOWER($1)] *)
Definition category_by_name (db : Shop.database) (name : string) : list Shop.category :=
  filter (fun c => Js.toLowerCase (Shop.category_name c) = Js.toLowerCase name)
         (Shop.categories db).

(** [POST /] of the categories *)
Definition create_category (category_name description : Req.field)
    (db : Shop.database) : Shop.reply * Shop.database :=
  if negb (Req.truthy category_name) then
    refuse 400 "Category name is required" db
  else
    let checkResult := category_by_name db (Req.text category_name) in
    if (0 <? length checkResult)%nat then
      refuse 400 "Category name already exists" db
    else
      let row := Shop.Category (Shop.next_category_id db_engine db)
                   (Req.text category_name) (Req.param (Req.or_null description)) in
      match Shop.category_refused db_engine db row with
      | Some message => refuse 500 message db
      | None =>
          (Shop.Reply 201 (Shop.CategoryRow row),
           Shop.Database (Shop.categories db ++ [row])%list (Shop.products db))
      end.

(** [PUT /:id] of the categories *)
Definition update_category (id : string) (category_name description : Req.field)
    (db : Shop.database) : Shop.reply * Shop.database :=
  if negb (Req.truthy category_name) then
    refuse 400 "Category name is required" db
  else
    guarded (Shop.read_integer db_engine id) db (fun cid =>
      let categoryResult := category_by_id db cid in
      if (length categoryResult =? 0)%nat then
        refuse 404 "Category not found" db
      else
        let duplicateResult :=
          filter (fun c => Shop.category_id c ≠ cid)
                 (category_by_name db (Req.text category_name)) in
        if (0 <? length duplicateResult)%nat then
          refuse 400 "Category name already exists" db
        else
          let row := Shop.Category cid (Req.text category_name)
                                   (Req.param (Req.or_null description)) in
          match Shop.category_update_refused db_engine db row with
          | Some message => refuse 500 message db
          | None =>
              (Shop.Reply 200 (Shop.CategoryRow row),
               Shop.Database
                 ((fun c => if decide (Shop.category_id c = cid) then row else c)
                    <$> Shop.categories db)
                 (Shop.products db))
          end).

(** [DELETE /:id] of the categories *)
Definition delete_category (id : string) (db : Shop.database)
  : Shop.reply * Shop.database :=
  guarded (Shop.read_integer db_engine id) db (fun cid =>
    let count :=
      Js.show_nat (length (filter (fun p => Shop.product_category p = cid)
                                  (Shop.products db))) in
    if gt0 (Js.parseInt count) then
      refuse 400 "Cannot delete category because it has associated products" db
    else
      match Shop.category_delete_refused db_engine db cid with
      | Some message => refuse 500 message db
      | None =>
          let deleteResult := category_by_id db cid in
          let db' :=
            Shop.Database (filter (fun c => Shop.category_id c ≠ cid) (Shop.categories db))
                          (Shop.products db) in
          if (length deleteResult =? 0)%nat then
            refuse 404 "Category not found" db'
          else (Shop.Reply 200 (Shop.Deleted (length deleteResult)), db')
      end).

(** The validation of the body in [POST /] and in [PUT /:id] of the
    products: the error of the answer 400, or [None]. *)
Definition product_input_error (product_name category_id price stock : Req.field)
  : option string :=
  if negb (Req.truthy product_name) || negb (Req.truthy category_id)
     || Req.is_undefined price || Req.is_undefined stock then
    Some "Product name, category ID, price, and stock are required"
  else if Js.le0 (Js.parseFloat (Req.text price)) then
    Some "Price must be greater than 0"
  else if Js.lt0 (Js.parseInt (Req.text stock)) then
    Some "Stock cannot be negative"
  else None.

(** [SELECT * FROM products WHERE product_id = $1] *)
Definition product_by_id (db : Shop.database) (id : Z) : list Shop.product :=
  filter (fun p => Shop.product_id p = id) (Shop.products db).

(** [POST /] of the products *)
Definition create_product (product_name category_id price stock : Req.field)
    (db : Shop.database) : Shop.reply * Shop.database :=
  match product_input_error product_name category_id price stock with
  | Some error => refuse 400 error db
  | None =>
      guarded (Shop.read_integer db_engine (Req.text category_id)) db (fun cid =>
        if (length (category_by_id db cid) =? 0)%nat then
          refuse 400 "Category does not exist" db
        else
          let row := Shop.Product (Shop.next_product_id db_engine db)
                       (Req.text product_name) cid (Req.param price) (Req.param stock) in
          match Shop.product_refused db_engine db row with
          | Some message => refuse 500 message db
          | None =>
              (Shop.Reply 201 (Shop.ProductRow row),
               Shop.Database (Shop.categories db) (Shop.products db ++ [row])%list)
          end)
  end.

(** [PUT /:id] of the products *)
Definition update_product (id : string)
    (product_name category_id price stock : Req.field)
    (db : Shop.database) : Shop.reply * Shop.database :=
  match product_input_error product_name category_id price stock with
  | Some error => refuse 400 error db
  | None =>
      guarded (Shop.read_integer db_engine id) db (fun pid =>
        if (length (product_by_id db pid) =? 0)%nat then
          refuse 404 "Product not found" db
        else
          guarded (Shop.read_integer db_engine (Req.text category_id)) db (fun cid =>
            if (length (category_by_id db cid) =? 0)%nat then
              refuse 400 "Category does not exist" db
            else
              let row := Shop.Product pid (Req.text product_name) cid
                                      (Req.param price) (Req.param stock) in
              match Shop.product_update_refused db_engine db row with
              | Some message => refuse 500 message db
              | None =>
                  (Shop.Reply 200 (Shop.ProductRow row),
                   Shop.Database (Shop.categories db)
                     ((fun p => if decide (Shop.product_id p = pid) then row else p)
                        <$> Shop.products db))
              end))
  end.

(** [DELETE /:id] of the products *)
Definition delete_product (id : string) (db : Shop.database)
  : Shop.reply * Shop.database :=
  guarded (Shop.read_integer db_engine id) db (fun pid =>
    match Shop.product_delete_refused db_engine db pid with
    | Some message => refuse 500 message db
    | None =>
        let deleteResult := product_by_id db pid in
        let db' :=
          Shop.Database (Shop.categories db)
                        (filter (fun p => Shop.product_id p ≠ pid) (Shop.products db)) in
        if (length deleteResult =? 0)%nat then
          refuse 404 "Product not found" db'
        else (Shop.Reply 200 (Shop.Deleted (length deleteResult)), db')
    end).

End Routes.

(** Invariants of the two tables. *)
Definition unique_names (db : Shop.database) : Prop :=
  NoDup ((fun c => Js.toLowerCase (Shop.category_name c)) <$> Shop.categories db).

Definition unique_ids (db : Shop.database) : Prop :=
  NoDup (Shop.category_id <$> Shop.categories db).

Definition referential (db : Shop.database) : Prop :=
  forall p, p ∈ Shop.products db ->
    exists c, c ∈ Shop.categories db /\ Shop.category_id c = Shop.product_category p.

(** The requests that change a table, as the two routers dispatch them. *)
Inductive request : Type :=
  | PostCategory (category_name description : Req.field)
  | PutCategory (id : string) (category_name description : Req.field)
  | DeleteCategory (id : string)
  | PostProduct (product_name category_id price stock : Req.field)
  | PutProduct (id : string) (product_name category_id price stock : Req.field)
  | DeleteProduct (id : string).

Definition handle (db_engine : Shop.engine) (req : request) (db : Shop.database)
  : Shop.reply * Shop.database :=
  match req with
  | PostCategory name description => create_category db_engine name description db
  | PutCategory id name description => update_category db_engine id name description db
  | DeleteCategory id => delete_category db_engine id db
  | PostProduct name category price stock =>
      create_product db_engine name category price stock db
  | PutProduct id name category price stock =>
      update_product db_engine id name category price stock db
  | DeleteProduct id => delete_product db_engine id db
  end.

(** the database after a sequence of requests, each handled alone *)
Definition handle_all (db_engine : Shop.engine) (reqs : list request)
    (db : Shop.database) : Shop.database :=
  foldl (fun db req => (handle db_engine req db).2) db reqs.

(** the identifier that a new category gets is not taken *)
Definition fresh_ids (db_engine : Shop.engine) : Prop :=
  forall db, Shop.next_category_id db_engine db ∉ Shop.category_id <$> Shop.categories db.

(** A database to run the routes on: integers are read from plain decimal
    texts, a new row gets the next identifier, and no write is refused. *)
Definition plain_integer (text : string) : string + Z :=
  match Js.parseInt text with
  | Js.Finite m _ =>
      if String.eqb (Js.show_Z m) text then inr m
      else inl ("invalid input syntax for type integer: " ++ text)
  | _ => inl ("invalid input syntax for type integer: " ++ text)
  end.

Definition sample_engine : Shop.engine :=
  Shop.Engine plain_integer
    (fun db => (1 + foldr Z.max 0 (Shop.category_id <$> Shop.categories db))%Z)
    (fun db => (1 + foldr Z.max 0 (Shop.product_id <$> Shop.products db))%Z)
    (fun _ _ => None) (fun _ _ => None) (fun _ _ => None) (fun _ _ => None)
    (fun _ _ => None) (fun _ _ => None).

Definition sample_shop : Shop.database :=
  Shop.Database
    [Shop.Category 1 "Tools" None; Shop.Category 2 "Toys" (Some "for children")]
    [Shop.Product 1 "Hammer" 1 (Some "9.99") (Some "5")].

(** ** An upload to run the handler on *)

Definition sample_cells (name cat price stock : Js.value) : list (string * Js.value) :=
  [(" Product_Name", name); ("Category_Name ", cat); ("PRICE", price); ("stock", stock)].

Definition widget_cells : list (string * Js.value) :=
  sample_cells (Js.Str "Widget") (Js.Str "tools") (Js.Str "$9.99") (Js.Num (Js.Finite 5 0)).

Definition gadget_cells : list (string * Js.value) :=
  sample_cells (Js.Str " Gadget ") (Js.Str "Tools") (Js.Str "-1") (Js.Str "3").

(** a row whose stock cell is blank, so that the row has no such key *)
Definition stockless_cells : list (string * Js.value) :=
  [(" Product_Name", Js.Str "Saw"); ("Category_Name ", Js.Str "Tools");
   ("PRICE", Js.Num (Js.Finite 12 0))].

Definition sample_path : string := "uploads/1700000000000-products.xlsx".

Definition sample_upload (productData : list (list (string * Js.value))) : world :=
  World
    {[ sample_path :=
         inr (Workbook ["Products"]
                {[ "Products" := Worksheet (Some "A1:D3") (inr productData) ]}) ]}
    [] [].

(** ** The same import on another table *)

(** the state of the loop as it would be over another table *)
Definition retable (table : list Db.row) (st : state) : state :=
  State (Db.Session table (Db.txn (client st))) (errors st) (processedCount st)
        (trace st).

(** The database decides on an INSERT without regard to the rows it holds:
    no unique index, no limit. *)
Definition table_blind (insert_error : list Db.row -> Db.row -> option string) : Prop :=
  forall seen seen' r, insert_error seen r = insert_error seen' r.
(** ** The primitives on some inputs *)

Example trim_spaces : Js.trim "  Product Name  " = "Product Name".
Proof. reflexivity. Qed.

Example colTrimmed_header : colTrimmed " Product_Name" = "product_name".
Proof. reflexivity. Qed.

Example parseFloat_inputs :
  Js.parseFloat "9.99" = Js.Finite 999 (-2) /\
  Js.parseFloat "-.5" = Js.Finite (-5) (-1) /\
  Js.parseFloat "1.2.3" = Js.Finite 12 (-1) /\
  Js.parseFloat "5." = Js.Finite 5 0 /\
  Js.parseFloat "5-3" = Js.Finite 5 0 /\
  Js.parseFloat "1e3" = Js.Finite 1 3 /\
  Js.parseFloat "-" = Js.NaN /\
  Js.parseFloat "." = Js.NaN /\
  Js.parseFloat "--5" = Js.NaN.
Proof. by repeat split. Qed.

Example parseInt_inputs :
  Js.parseInt "-12-3" = Js.Finite (-12) 0 /\
  Js.parseInt "007" = Js.Finite 7 0 /\
  Js.parseInt "0x1F" = Js.Finite 31 0 /\
  Js.parseInt "--1" = Js.NaN /\
  Js.parseInt "-" = Js.NaN.
Proof. by repeat split. Qed.

Example number_toString_inputs :
  Js.number_toString (Js.Finite 999 (-2)) = "9.99" /\
  Js.number_toString (Js.Finite 12 2) = "1200" /\
  Js.number_toString (Js.Finite 5 (-3)) = "0.005" /\
  Js.number_toString (Js.Finite 1 (-7)) = "1e-7" /\
  Js.number_toString (Js.Finite 15 20) = "1.5e+21" /\
  Js.number_toString (Js.Finite (-1500) (-2)) = "-15".
Proof. by repeat split. Qed.

(** A stock of [1.5] written as text loses its point before it is read. *)
Example stock_text_loses_point :
  getStock (columnMap sample_headers)
    (sample_row (Js.Str "a") (Js.Str "b") (Js.Str "1") (Js.Str "1.5"))
  = Js.Finite 15 0.
Proof. by vm_compute. Qed.

(** ** Properties of the loop *)

Section TurnFacts.

Variable insert_error : list Db.row -> Db.row -> option string.
Variable categories : list category.
Variable columnMap : gmap string string.

Abbreviation step := (process_row insert_error categories columnMap).
Abbreviation steps := (process_rows insert_error categories columnMap).

Lemma accepted_app (a b : list event) :
  accepted (a ++ b)%list = (accepted a ++ accepted b)%list.
Proof.
  induction a as [|ev a IH]; simpl; [done|].
  destruct ev as [| | |r [|]| | |]; simpl; by rewrite ?IH.
Qed.

Lemma reached_app (a b : list event) :
  reached (a ++ b)%list = (reached a ++ reached b)%list.
Proof.
  induction a as [|ev a IH]; simpl; [done|].
  destruct ev; simpl; by rewrite ?IH.
Qed.

Lemma insert_product_turn (i : nat) (r : Db.row) (st : state) (written : list Db.row) :
  Db.txn (client st) = Some written ->
  turn i (log (ProcessingRow (i + 2)) st)
         (insert_product insert_error (i + 2) r (log (ProcessingRow (i + 2)) st)).
Proof.
  intros Htx. unfold insert_product, Db.insert. simpl.
  destruct (insert_error _ r) as [message|] eqn:E.
  - apply turn_error with (reason := database_error message); simpl; try done.
    rewrite !accepted_app. simpl. by rewrite !app_nil_r.
  - rewrite Htx. eapply turn_insert; simpl; try done.
    rewrite !accepted_app. simpl. by rewrite !app_nil_r.
Qed.

Lemma log_turn (i j : nat) (st st' : state) :
  turn i (log (ProcessingRow j) st) st' -> turn i st st'.
Proof.
  intros [reason H1 H2 H3 H4 | r w H0 H1 H2 H3 H4]; simpl in *.
  - apply turn_error with reason; try done.
    rewrite H4, accepted_app. simpl. by rewrite app_nil_r.
  - apply turn_insert with r w; try done.
    rewrite H4, accepted_app. simpl. by rewrite app_nil_r.
Qed.

Lemma push_turn (i j : nat) (reason : string) (st : state) :
  turn i st (push (row_error (i + 2) reason) (log (ProcessingRow j) st)).
Proof.
  apply turn_error with reason; simpl; try done.
  rewrite accepted_app. simpl. by rewrite app_nil_r.
Qed.

(** Every turn of the loop is one of the two, as long as the transaction
    is open. *)
Lemma process_row_turn (i : nat) (product : gmap string Js.value) (st : state)
    (written : list Db.row) :
  Db.txn (client st) = Some written -> turn i st (step i product st).
Proof.
  intros Htx. unfold process_row.
  repeat case_match; try apply push_turn.
  apply log_turn with (j := i + 2). by apply insert_product_turn with written.
Qed.

Lemma turn_open (i : nat) (st st' : state) (written : list Db.row) :
  Db.txn (client st) = Some written -> turn i st st' ->
  exists written', Db.txn (client st') = Some written'.
Proof.
  intros Htx [reason _ _ Hc _ | r w _ Hc _ _ _]; rewrite Hc; simpl; eauto.
Qed.

(** The loop as a whole: the errors it adds are those of some rows, in
    increasing row order, each under its display number; the other rows
    are written to the open transaction, and counted. *)
Lemma process_rows_spec (products : list (gmap string Js.value)) :
  forall (i : nat) (st : state) (w : list Db.row),
    Db.txn (client st) = Some w ->
    exists (fails : list (nat * string)) (written : list Db.row),
      errors (steps i products st) = (errors st ++ map numbered fails)%list /\
      processedCount (steps i products st) = processedCount st + length written /\
      client (steps i products st)
        = Db.Session (Db.table (client st)) (Some (w ++ written)%list) /\
      accepted (trace (steps i products st))
        = (accepted (trace st) ++ written)%list /\
      length fails + length written = length products /\
      Forall (fun j => i <= j < i + length products) (fails.*1) /\
      StronglySorted lt (fails.*1).
Proof.
  induction products as [|product rest IH]; intros i st w Htx; simpl.
  - exists [], []. rewrite !app_nil_r. destruct st as [[t x] e n tr]; simpl in *.
    subst x. repeat split; try done; try lia; constructor.
  - pose proof (process_row_turn i product st w Htx) as Hturn.
    destruct Hturn as [reason He Hn Hc Ha | r w0 Hw Hc He Hn Ha].
    + destruct (IH (S i) (step i product st) w) as
        (fails & written & E1 & E2 & E3 & E4 & E5 & E6 & E7).
      { by rewrite Hc. }
      exists ((i, reason) :: fails), written.
      rewrite E1, E2, E3, E4, He, Hn, Hc, Ha. simpl.
      rewrite <- app_assoc. simpl. repeat split; try done; try lia.
      * constructor; [lia|]. eapply Forall_impl; [exact E6|]. simpl. lia.
      * constructor; [done|]. eapply Forall_impl; [exact E6|]. simpl. lia.
    + assert (w0 = w) as -> by congruence.
      destruct (IH (S i) (step i product st) (w ++ [r])%list) as
        (fails & written & E1 & E2 & E3 & E4 & E5 & E6 & E7).
      { by rewrite Hc. }
      exists fails, (r :: written).
      rewrite E1, E2, E3, E4, He, Hn, Hc, Ha. simpl.
      rewrite <- !app_assoc. simpl. repeat split; try done; try lia.
      eapply Forall_impl; [exact E6|]. simpl. lia.
Qed.

(** When every turn adds an error, the loop adds one error for each row,
    in row order, and writes nothing. *)
Lemma every_turn_errors (products : list (gmap string Js.value)) :
  forall (i : nat) (st : state) (w : list Db.row),
    Db.txn (client st) = Some w ->
    every_turn insert_error categories columnMap
      (adds_error insert_error categories columnMap) i products st ->
    exists reasons : list string,
      length reasons = length products /\
      errors (steps i products st)
        = (errors st ++ imap (fun k reason => row_error (i + k + 2) reason) reasons)%list /\
      processedCount (steps i products st) = processedCount st /\
      client (steps i products st) = client st /\
      accepted (trace (steps i products st)) = accepted (trace st).
Proof.
  induction products as [|product rest IH]; intros i st w Htx Hall; simpl.
  - exists []. simpl. by rewrite app_nil_r.
  - destruct Hall as [Hadd Hall]. unfold adds_error in Hadd.
    destruct (process_row_turn i product st w Htx)
      as [reason He Hn Hc Ha | r w0 Hw Hc He Hn Ha].
    + destruct (IH (S i) (step i product st) w) as (reasons & L & E1 & E2 & E3 & E4);
        [by rewrite Hc | done |].
      exists (reason :: reasons). simpl.
      rewrite E1, E2, E3, E4, He, Hn, Hc, Ha, <- app_assoc. simpl.
      rewrite Nat.add_0_r. repeat split; try done; [lia|].
      do 2 f_equal. apply imap_ext. intros k x _. simpl. f_equal. lia.
    + rewrite He in Hadd. lia.
Qed.

(** When every turn inserts, the loop writes one row for each product and
    adds no error. *)
Lemma every_turn_inserts (products : list (gmap string Js.value)) :
  forall (i : nat) (st : state) (w : list Db.row),
    Db.txn (client st) = Some w ->
    every_turn insert_error categories columnMap
      (inserts insert_error categories columnMap) i products st ->
    exists written : list Db.row,
      length written = length products /\
      errors (steps i products st) = errors st /\
      processedCount (steps i products st) = processedCount st + length products /\
      client (steps i products st)
        = Db.Session (Db.table (client st)) (Some (w ++ written)%list) /\
      accepted (trace (steps i products st)) = (accepted (trace st) ++ written)%list.
Proof.
  induction products as [|product rest IH]; intros i st w Htx Hall; simpl.
  - exists []. simpl. rewrite !app_nil_r. destruct st as [[t x] e n tr]; simpl in *.
    subst x. repeat split; try done; lia.
  - destruct Hall as [Hins Hall]. unfold inserts in Hins.
    destruct (process_row_turn i product st w Htx)
      as [reason He Hn Hc Ha | r w0 Hw Hc He Hn Ha].
    + rewrite Hn in Hins. lia.
    + assert (w0 = w) as -> by congruence.
      destruct (IH (S i) (step i product st) (w ++ [r])%list)
        as (written & L & E1 & E2 & E3 & E4); [by rewrite Hc | done |].
      exists (r :: written). simpl.
      rewrite E1, E2, E3, E4, He, Hn, Hc, Ha, <- !app_assoc. simpl.
      repeat split; try done; lia.
Qed.

(** A turn that inserts leaves a count above the one it found, whatever
    follows; likewise for the errors. *)
Lemma some_turn_inserts (products : list (gmap string Js.value)) :
  forall (i : nat) (st : state) (w : list Db.row),
    Db.txn (client st) = Some w ->
    some_turn insert_error categories columnMap
      (inserts insert_error categories columnMap) i products st ->
    processedCount st < processedCount (steps i products st).
Proof.
  induction products as [|product rest IH]; intros i st w Htx Hsome; simpl in *.
  - done.
  - pose proof (process_row_turn i product st w Htx) as Hturn.
    destruct (turn_open _ _ _ _ Htx Hturn) as [w' Htx'].
    destruct (process_rows_spec rest (S i) _ w' Htx')
      as (fails & written & _ & E2 & _).
    destruct Hsome as [Hins | Hsome].
    + unfold inserts in Hins. lia.
    + specialize (IH (S i) _ w' Htx' Hsome).
      destruct Hturn as [reason _ Hn _ _ | r w0 _ _ _ Hn _]; lia.
Qed.

Lemma some_turn_errors (products : list (gmap string Js.value)) :
  forall (i : nat) (st : state) (w : list Db.row),
    Db.txn (client st) = Some w ->
    some_turn insert_error categories columnMap
      (adds_error insert_error categories columnMap) i products st ->
    length (errors st) < length (errors (steps i products st)).
Proof.
  induction products as [|product rest IH]; intros i st w Htx Hsome; simpl in *.
  - done.
  - pose proof (process_row_turn i product st w Htx) as Hturn.
    destruct (turn_open _ _ _ _ Htx Hturn) as [w' Htx'].
    destruct (process_rows_spec rest (S i) _ w' Htx')
      as (fails & written & E1 & _).
    destruct Hsome as [Hadd | Hsome].
    + unfold adds_error in Hadd. rewrite E1, length_app. lia.
    + specialize (IH (S i) _ w' Htx' Hsome).
      destruct Hturn as [reason He _ _ _ | r w0 _ _ He _ _].
      * rewrite He, length_app in IH. simpl in IH. lia.
      * rewrite He in IH. lia.
Qed.

End TurnFacts.

(** ** The column map *)

Lemma columnMap_snoc (headers : list string) (col : string) :
  columnMap (headers ++ [col]) = <[colTrimmed col := col]> (columnMap headers).
Proof. unfold columnMap. by rewrite foldl_app. Qed.

(** A key is bound to the last column that is named after it. *)
Lemma columnMap_lookup (headers : list string) (key : string) :
  columnMap headers !! key = last (filter (fun col => colTrimmed col = key) headers).
Proof.
  induction headers as [|col headers IH] using rev_ind; [done|].
  rewrite columnMap_snoc, filter_app, lookup_insert.
  case_decide as Hkey.
  - rewrite filter_cons_True, filter_nil by done. by rewrite last_snoc.
  - rewrite filter_cons_False, filter_nil, app_nil_r by done. exact IH.
Qed.

Lemma colTrimmed_empty : colTrimmed "" = "".
Proof. reflexivity. Qed.

Lemma last_elem_of {A : Type} (l : list A) (x : A) : last l = Some x -> x ∈ l.
Proof.
  induction l as [|y l IH] using rev_ind; [done|].
  rewrite last_snoc. intros [= ->]. apply elem_of_app. right. by left.
Qed.

(** For a required key, [!columnMap[field]] says that no column is named
    after it. *)
Lemma column_missing_absent (headers : list string) (field : string) :
  field ≠ "" ->
  column_missing (columnMap headers) field
    = bool_decide (field ∉ colTrimmed <$> headers).
Proof.
  intros Hfield. unfold column_missing. rewrite columnMap_lookup.
  destruct (last _) as [col|] eqn:E.
  - apply last_elem_of, list_elem_of_filter in E as [Hcol Hin].
    rewrite bool_decide_eq_false_2.
    + apply String.eqb_neq. intros ->. by rewrite colTrimmed_empty in Hcol.
    + intros Hnot. apply Hnot. rewrite <- Hcol. by apply list_elem_of_fmap_2.
  - symmetry. apply bool_decide_eq_true_2. intros Hin.
    apply list_elem_of_fmap in Hin as (col & -> & Hin).
    apply last_None in E.
    assert (col ∈ filter (fun c => colTrimmed c = colTrimmed col) headers) as Hf
      by (by apply list_elem_of_filter).
    rewrite E in Hf. by apply not_elem_of_nil in Hf.
Qed.

Lemma missingFields_absent (headers : list string) :
  missingFields (columnMap headers) = absent headers.
Proof.
  unfold missingFields, absent, requiredFields. simpl.
  by rewrite !column_missing_absent.
Qed.

Lemma columnMap_None (headers : list string) (key : string) :
  columnMap headers !! key = None <-> key ∉ colTrimmed <$> headers.
Proof.
  rewrite columnMap_lookup, last_None. split.
  - intros E Hin. apply list_elem_of_fmap in Hin as (col & -> & Hin).
    assert (col ∈ filter (fun c => colTrimmed c = colTrimmed col) headers) as Hf
      by (by apply list_elem_of_filter).
    rewrite E in Hf. by apply not_elem_of_nil in Hf.
  - intros Hnot. destruct (filter _ headers) as [|col rest] eqn:E; [done|].
    assert (col ∈ filter (fun c => colTrimmed c = key) headers) as Hf
      by (rewrite E; by left).
    apply list_elem_of_filter in Hf as [<- Hin].
    exfalso. apply Hnot. by apply list_elem_of_fmap_2.
Qed.


(** ** Texts *)

Lemma append_cons (x : ascii) (a b : string) : String x a ++ b = String x (a ++ b).
Proof. reflexivity. Qed.

Lemma append_nil_l (a : string) : "" ++ a = a.
Proof. reflexivity. Qed.

Lemma append_assoc (a b c : string) : (a ++ b) ++ c = a ++ (b ++ c).
Proof.
  induction a as [|x a IH]; [by rewrite !append_nil_l|].
  by rewrite !append_cons, IH.
Qed.

Lemma append_nil_r (a : string) : a ++ "" = a.
Proof.
  induction a as [|x a IH]; [done|]. by rewrite append_cons, IH.
Qed.

Lemma occurs_refl (s : string) : occurs s s.
Proof. exists "", "". simpl. by rewrite append_nil_r. Qed.

Lemma occurs_append_l (s a b : string) : occurs s a -> occurs s (a ++ b).
Proof.
  intros (x & y & ->). exists x, (y ++ b). by rewrite !append_assoc.
Qed.

Lemma occurs_append_r (s a b : string) : occurs s b -> occurs s (a ++ b).
Proof.
  intros (x & y & ->). exists (a ++ x), y. by rewrite !append_assoc.
Qed.

(** Every element of a joined list occurs in the joined text. *)
Lemma occurs_join (sep : string) (l : list string) (s : string) :
  s ∈ l -> occurs s (Js.join sep l).
Proof.
  unfold Js.join. induction l as [|x l IH]; intros Hin.
  - by apply not_elem_of_nil in Hin.
  - destruct l as [|y l].
    + apply list_elem_of_singleton in Hin as ->. apply occurs_refl.
    + change (String.concat sep (x :: y :: l))
        with (x ++ sep ++ String.concat sep (y :: l)).
      apply elem_of_cons in Hin as [-> | Hin].
      * apply occurs_append_l, occurs_refl.
      * apply occurs_append_r, occurs_append_r, IH, Hin.
Qed.

(** The error for an unknown category names the category and every
    category there is. *)
Lemma no_category_names (categories : list category) (categoryName : string) :
  occurs categoryName (no_category categories categoryName) /\
  forall cat, cat ∈ categories ->
    occurs (category_name cat) (no_category categories categoryName).
Proof.
  unfold no_category. split.
  - apply occurs_append_r, occurs_append_r, occurs_append_l, occurs_refl.
  - intros cat Hin. do 5 apply occurs_append_r.
    apply occurs_join. by apply list_elem_of_fmap_2.
Qed.

(** ** Numeric cells *)

(** every character of [s] is of the class *)
Abbreviation within cls s := (Forall (fun c => cls c = true) (list_ascii_of_string s)).

Lemma price_class_chars (c : ascii) :
  price_class c = bool_decide (c ∈ list_ascii_of_string price_chars).
Proof. destruct c as [[] [] [] [] [] [] [] []]; by vm_compute. Qed.

Lemma stock_class_chars (c : ascii) :
  stock_class c = bool_decide (c ∈ list_ascii_of_string stock_chars).
Proof. destruct c as [[] [] [] [] [] [] [] []]; by vm_compute. Qed.

(** The replacement with the regular expression leaves the characters of
    the class, in their order. *)
Lemma keep_stripped (cls : ascii -> bool) (chars text : string) :
  (forall c, cls c = bool_decide (c ∈ list_ascii_of_string chars)) ->
  Js.keep cls text = stripped chars text.
Proof.
  intros Hcls. unfold stripped. induction text as [|c text IH]; [done|].
  simpl. rewrite Hcls. case_bool_decide as Hc.
  - rewrite filter_cons_True by done. simpl. by rewrite <- IH.
  - by rewrite filter_cons_False.
Qed.

Lemma keep_within (cls : ascii -> bool) (text : string) :
  within cls (Js.keep cls text).
Proof.
  induction text as [|c text IH]; simpl; [constructor|].
  destruct (cls c) eqn:E; [by constructor | done].
Qed.

Lemma or_zero_within (cls : ascii -> bool) (text : string) :
  cls "0"%char = true -> within cls text -> within cls (or_zero text).
Proof.
  intros H0 H. unfold or_zero. case_match; [|done].
  by repeat constructor.
Qed.

Lemma trimStart_within (cls : ascii -> bool) (s : string) :
  within cls s -> within cls (Js.trimStart s).
Proof.
  induction s as [|c s IH]; simpl; [done|].
  intros H. case_match; [|done]. apply IH. by inversion H.
Qed.

Lemma take_sign_within (cls : ascii -> bool) (s : string) :
  within cls s -> within cls (Js.take_sign s).2.
Proof.
  intros H. unfold Js.take_sign. repeat case_match; simpl; try done.
  all: simplify_eq; by inversion H.
Qed.

Lemma span_within (cls cls' : ascii -> bool) (s : string) :
  within cls s -> within cls (Js.span cls' s).2.
Proof.
  induction s as [|c s IH]; simpl; [done|].
  intros H. destruct (cls' c); [|done].
  destruct (Js.span cls' s) as [a b] eqn:E. simpl in *. apply IH. by inversion H.
Qed.

Lemma price_class_no_exponent (c : ascii) :
  price_class c = true ->
  ((Js.code c =? 101)%nat || (Js.code c =? 69)%nat) = false.
Proof. destruct c as [[] [] [] [] [] [] [] []]; by vm_compute. Qed.

Lemma price_class_no_infinity (s : string) :
  within price_class s -> String.prefix "Infinity" s = false.
Proof.
  destruct s as [|c s]; [done|]. intros H. inversion H as [|? ? Hc _]; subst.
  destruct c as [[] [] [] [] [] [] [] []]; try done; by vm_compute in Hc.
Qed.

Lemma exponent_within (s : string) :
  within price_class s -> Js.exponent s = 0%Z.
Proof.
  destruct s as [|c s]; [done|]. intros H. inversion H as [|? ? Hc _]; subst.
  unfold Js.exponent. by rewrite price_class_no_exponent.
Qed.

(** Of a text of digits, points and minus signs [parseFloat] reads a
    decimal without exponent, or nothing. *)
Lemma parseFloat_decimal (s : string) :
  within price_class s ->
  Js.parseFloat s = Js.NaN \/
  exists m e, Js.parseFloat s = Js.Finite m e /\ (e <= 0)%Z.
Proof.
  intros H. unfold Js.parseFloat.
  pose proof (take_sign_within _ _ (trimStart_within _ _ H)) as H1.
  destruct (Js.take_sign (Js.trimStart s)) as [neg s1]. simpl in H1.
  rewrite price_class_no_infinity by done.
  pose proof (span_within _ Js.is_digit _ H1) as H2.
  destruct (Js.span Js.is_digit s1) as [ip r1]. simpl in H2.
  assert (exists fp r2,
    match r1 with
    | String "."%char r => Js.span Js.is_digit r
    | _ => (EmptyString, r1)
    end = (fp, r2) /\ within price_class r2) as (fp & r2 & -> & H3).
  { destruct r1 as [|c r]; [by exists "", ""|].
    assert (within price_class r) as Hr by (by inversion H2).
    pose proof (span_within _ Js.is_digit _ Hr) as H3.
    destruct (Js.span Js.is_digit r) as [a b] eqn:E. simpl in H3.
    destruct c as [[] [] [] [] [] [] [] []]; by eauto. }
  rewrite exponent_within by done.
  destruct ip, fp; eauto; right; eexists _, _; split; try done; lia.
Qed.

Lemma stock_class_no_radix (c : ascii) :
  stock_class c = true ->
  ((Js.code c =? 120)%nat || (Js.code c =? 88)%nat) = false.
Proof. destruct c as [[] [] [] [] [] [] [] []]; by vm_compute. Qed.

(** Of a text of digits and minus signs [parseInt] reads an integer, or
    nothing. *)
Lemma parseInt_integer (s : string) :
  within stock_class s ->
  Js.parseInt s = Js.NaN \/ exists m, Js.parseInt s = Js.Finite m 0.
Proof.
  intros H. unfold Js.parseInt.
  pose proof (take_sign_within _ _ (trimStart_within _ _ H)) as H1.
  destruct (Js.take_sign (Js.trimStart s)) as [neg s1]. simpl in H1.
  destruct s1 as [|c [|x r]].
  - by left.
  - repeat case_match; eauto.
  - assert (stock_class x = true) as Hx.
    { inversion H1 as [|? ? _ H2]; subst. by inversion H2. }
    repeat case_match; eauto.
    all: rewrite stock_class_no_radix in * by done; done.
Qed.

(** ** The import as a whole *)

Section ImportFacts.

Variable insert_error : list Db.row -> Db.row -> option string.

Abbreviation after_rows categories columnMap table products :=
  (process_rows insert_error categories columnMap 0 products (entry table)).

(** With a category and every required column, the call runs the loop
    from [entry] and ends on the three-way decision; the [catch] adds its
    ROLLBACK when the decision throws. *)
Lemma processProducts_loop (categories : list category)
    (columnMap : gmap string string) (table : list Db.row)
    (products : list (gmap string Js.value)) :
  categories ≠ [] ->
  missingFields columnMap = [] ->
  processProducts insert_error categories columnMap table products =
    let '(result, st) :=
      decide_outcome products (after_rows categories columnMap table products) in
    let st :=
      match result with
      | Throw _ => query_rollback st
      | Return _ => st
      end in
    Run result (Db.table (client (log Release st))) (trace (log Release st)).
Proof.
  intros Hcat Hmiss. unfold processProducts, try_block.
  destruct categories as [|cat cats]; [done|].
  rewrite Hmiss. reflexivity.
Qed.



(** C5, as the code has it.  When there is at least one row and every turn
    of the loop inserts, the call sends COMMIT and returns an object with
    two fields: [success], which is [true], and [message], the text
    [Successfully uploaded N products] for the [N] rows.  The products
    table afterwards is the old table followed by the [N] inserted rows. *)
Theorem all_rows_inserted_reports_success (categories : list category)
    (columnMap : gmap string string) (table : list Db.row)
    (products : list (gmap string Js.value)) :
  categories ≠ [] ->
  missingFields columnMap = [] ->
  products ≠ [] ->
  every_turn insert_error categories columnMap
    (inserts insert_error categories columnMap) 0 products (entry table) ->
  exists written : list Db.row,
    length written = length products /\
    outcome (processProducts insert_error categories columnMap table products)
      = Return [("success", JBool true);
                ("message", JString ("Successfully uploaded "
                                       ++ Js.show_nat (length products) ++ " products"))] /\
    store (processProducts insert_error categories columnMap table products)
      = (table ++ written)%list /\
    accepted (events (processProducts insert_error categories columnMap table products))
      = written /\
    events (processProducts insert_error categories columnMap table products)
      = (trace (after_rows categories columnMap table products)
           ++ [Commit; Release])%list.
Proof.
  intros Hcat Hmiss Hne Hall.
  rewrite (processProducts_loop _ _ _ _ Hcat Hmiss).
  destruct (every_turn_inserts insert_error categories columnMap products 0
              (entry table) [] eq_refl Hall)
    as (written & L & E1 & E2 & E3 & E4).
  simpl in E1, E2, E3, E4.
  exists written. unfold decide_outcome. rewrite E1. simpl.
  replace (length products =? 0)%nat with false
    by (symmetry; apply Nat.eqb_neq; destruct products; simpl; [done | lia]).
  simpl. rewrite E2, E3, !accepted_app, E4. simpl.
  rewrite <- !app_assoc, !app_nil_r. by simpl.
Qed.

(** C6.  Without a category the call throws the no-categories error right
    after the SELECT, whatever the columns and the rows are: the loop
    reaches no row, no INSERT is sent, and the products table is as it
    was. *)
Theorem no_categories_fails (columnMap : gmap string string)
    (table : list Db.row) (products : list (gmap string Js.value)) :
  processProducts insert_error [] columnMap table products
    = Run (Throw no_categories_message) table
          [Begin; SelectCategories; Rollback; Release]
  /\ reached (events (processProducts insert_error [] columnMap table products)) = []
  /\ accepted (events (processProducts insert_error [] columnMap table products)) = [].
Proof. by repeat split. Qed.

(** C9.  With a category and every required column but no data row, the
    call does not return a report: the number of errors, zero, equals the
    number of rows, so it sends ROLLBACK and throws the no-valid-products
    error, with an empty list of errors. *)
Theorem empty_import_fails (categories : list category)
    (columnMap : gmap string string) (table : list Db.row) :
  categories ≠ [] ->
  missingFields columnMap = [] ->
  processProducts insert_error categories columnMap table []
    = Run (Throw "No valid products found. Errors: ") table
          [Begin; SelectCategories; Rollback; Rollback; Release]
  /\ (forall report,
        outcome (processProducts insert_error categories columnMap table [])
          ≠ Return report).
Proof.
  intros Hcat Hmiss. rewrite (processProducts_loop _ _ _ _ Hcat Hmiss).
  by split.
Qed.


End ImportFacts.

(** ** One row *)

Section RowFacts.

Variable insert_error : list Db.row -> Db.row -> option string.
Variable categories : list category.
Variable columnMap : gmap string string.

Abbreviation step := (process_row insert_error categories columnMap).

(** A turn adds at most one error, also when the INSERT fails. *)
Lemma process_row_one_error (i : nat) (product : gmap string Js.value) (st : state) :
  length (errors (step i product st)) <= S (length (errors st)).
Proof.
  unfold process_row, insert_product, Db.insert.
  repeat case_match; simpl; rewrite ?length_app; simpl; simplify_eq; simpl; lia.
Qed.


(** C10.  A product or category cell that holds a falsy value reads as the
    empty text, so the turn rejects the row with the missing-name error and
    does not insert it.  The number 0 and the boolean [false] are such
    values, although their own texts are not empty. *)
Theorem falsy_text_cell_rejected (i : nat) (product : gmap string Js.value)
    (st : state) :
  let name_cell := Js.get product (columnMap !! "product_name") in
  let category_cell := Js.get product (columnMap !! "category_name") in
  (Js.truthy name_cell = false -> getProductName columnMap product = "") /\
  (Js.truthy category_cell = false -> getCategoryName columnMap product = "") /\
  (Js.truthy name_cell = false \/ Js.truthy category_cell = false ->
   errors (step i product st)
     = (errors st ++ [row_error (i + 2) missing_name])%list /\
   processedCount (step i product st) = processedCount st /\
   client (step i product st) = client st) /\
  (Js.truthy (Js.Num (Js.Finite 0 0)) = false /\
   Js.toString (Js.Num (Js.Finite 0 0)) = "0") /\
  (Js.truthy (Js.Bool false) = false /\ Js.toString (Js.Bool false) = "false").
Proof.
  intros name_cell category_cell.
  assert (Js.truthy name_cell = false -> getProductName columnMap product = "") as Hn.
  { intros H. unfold getProductName, Js.or. fold name_cell. by rewrite H. }
  assert (Js.truthy category_cell = false -> getCategoryName columnMap product = "") as Hc.
  { intros H. unfold getCategoryName, Js.or. fold category_cell. by rewrite H. }
  repeat split; try done.
  all: unfold process_row.
  all: destruct H as [H | H]; [rewrite (Hn H) | rewrite (Hc H)]; simpl;
    rewrite ?orb_true_r; done.
Qed.

End RowFacts.

(** ** The numeric accessors *)

Section CellFacts.

Variable columnMap : gmap string string.
Variable product : gmap string Js.value.


End CellFacts.

(** ** The import of the sample sheet *)

Example sample_columns :
  columnMap sample_headers !! "product_name" = Some " Product_Name" /\
  missingFields (columnMap sample_headers) = [].
Proof. by vm_compute. Qed.

Example import_widget :
  processProducts accept_all sample_categories (columnMap sample_headers) [] [widget]
  = Run (Return [("success", JBool true);
                 ("message", JString "Successfully uploaded 1 products")])
        [Db.Row "Widget" 1 (Js.Finite 999 (-2)) (Js.Finite 5 0)]
        [Begin; SelectCategories; ProcessingRow 2;
         Insert (Db.Row "Widget" 1 (Js.Finite 999 (-2)) (Js.Finite 5 0)) true;
         Commit; Release].
Proof. by vm_compute. Qed.

(** A second [Widget] is refused by the unique index: one product is
    committed, and the call throws. *)
Example import_duplicate :
  let r := processProducts unique_name sample_categories
             (columnMap sample_headers) [] [widget; widget] in
  outcome r = Throw ("Uploaded 1 products with 1 errors: Row 3: Database error: "
                       ++ "duplicate key value violates unique constraint") /\
  store r = [Db.Row "Widget" 1 (Js.Finite 999 (-2)) (Js.Finite 5 0)].
Proof. by vm_compute. Qed.



Lemma all_rows_inserted_witness :
  exists written : list Db.row,
    length written = 1 /\
    outcome (processProducts accept_all sample_categories
               (columnMap sample_headers) [] [widget])
      = Return [("success", JBool true);
                ("message", JString ("Successfully uploaded "
                                       ++ Js.show_nat 1 ++ " products"))] /\
    store (processProducts accept_all sample_categories
             (columnMap sample_headers) [] [widget]) = ([] ++ written)%list /\
    accepted (events (processProducts accept_all sample_categories
                        (columnMap sample_headers) [] [widget])) = written /\
    events (processProducts accept_all sample_categories
              (columnMap sample_headers) [] [widget])
      = (trace (process_rows accept_all sample_categories
                  (columnMap sample_headers) 0 [widget] (entry []))
           ++ [Commit; Release])%list.
Proof.
  apply (all_rows_inserted_reports_success accept_all sample_categories
           (columnMap sample_headers) [] [widget]).
  - discriminate.
  - vm_compute. reflexivity.
  - discriminate.
  - vm_compute. repeat split; reflexivity.
Defined.

Lemma empty_import_witness :
  processProducts accept_all sample_categories (columnMap sample_headers) [] []
    = Run (Throw "No valid products found. Errors: ") []
          [Begin; SelectCategories; Rollback; Rollback; Release]
  /\ (forall report,
        outcome (processProducts accept_all sample_categories
                   (columnMap sample_headers) [] [])
          ≠ Return report).
Proof.
  apply (empty_import_fails accept_all sample_categories (columnMap sample_headers) []).
  - discriminate.
  - vm_compute. reflexivity.
Defined.




(** C5 as it is written fails on the report of the one-row import: no
    field of it holds the count (nor a list of row errors).  It also fails
    on the sheet without a data row, of which every row is inserted: that
    call returns no report at all. *)
Lemma success_report_has_no_count :
  (outcome (processProducts accept_all sample_categories
              (columnMap sample_headers) [] [widget])
     = Return [("success", JBool true);
               ("message", JString "Successfully uploaded 1 products")] /\
   forall row_errors summary,
     ~ surfaces [("success", JBool true);
                 ("message", JString "Successfully uploaded 1 products")]
                true 1 row_errors summary) /\
  (every_turn accept_all sample_categories (columnMap sample_headers)
     (inserts accept_all sample_categories (columnMap sample_headers))
     0 [] (entry []) /\
   outcome (processProducts accept_all sample_categories
              (columnMap sample_headers) [] [])
     = Throw "No valid products found. Errors: ").
Proof.
  split; [|by vm_compute].
  split; [by vm_compute|].
  intros row_errors summary (_ & (k & Hk) & _).
  unfold field in Hk. cbn [find fst] in Hk.
  destruct (String.eqb "success" k); [discriminate|].
  destruct (String.eqb "message" k); discriminate.
Qed.


Lemma falsy_text_cell_witness :
  errors (process_row accept_all sample_categories (columnMap sample_headers) 0
            (sample_row (Js.Num (Js.Finite 0 0)) (Js.Str "Tools")
                        (Js.Str "1") (Js.Str "1"))
            (entry []))
    = [row_error 2 missing_name].
Proof.
  destruct (falsy_text_cell_rejected accept_all sample_categories
              (columnMap sample_headers) 0
              (sample_row (Js.Num (Js.Finite 0 0)) (Js.Str "Tools")
                          (Js.Str "1") (Js.Str "1"))
              (entry [])) as (_ & _ & H & _).
  destruct H as (He & _); [left; vm_compute; reflexivity|].
  exact He.
Defined.


(** ** Normal forms of names *)

(** the text is empty or starts with a character that [trim] keeps *)
Abbreviation starts_clean s :=
  (match s with String c _ => Js.is_white c = false | EmptyString => True end).

Lemma trimStart_clean (s : string) : starts_clean (Js.trimStart s).
Proof.
  induction s as [|c s IH]; simpl; [done|].
  destruct (Js.is_white c) eqn:E; [exact IH | exact E].
Qed.

Lemma trimStart_of_clean (s : string) : starts_clean s -> Js.trimStart s = s.
Proof. destruct s as [|c s]; simpl; [done|]. by intros ->. Qed.

Lemma trimEnd_clean (s : string) : starts_clean s -> starts_clean (Js.trimEnd s).
Proof.
  destruct s as [|c s]; simpl; [done|]. intros Hc.
  destruct (Js.trimEnd s); by rewrite ?Hc.
Qed.

Lemma trimEnd_idem (s : string) : Js.trimEnd (Js.trimEnd s) = Js.trimEnd s.
Proof.
  induction s as [|c s IH]; simpl; [done|].
  destruct (Js.trimEnd s) as [|d t] eqn:E.
  - destruct (Js.is_white c) eqn:Hc; simpl; [done | by rewrite Hc].
  - change (Js.trimEnd (String c (String d t))) with
      (match Js.trimEnd (String d t) with
       | EmptyString => if Js.is_white c then EmptyString else String c EmptyString
       | u => String c u
       end).
    by rewrite IH.
Qed.

Lemma trim_idem (s : string) : Js.trim (Js.trim s) = Js.trim s.
Proof.
  unfold Js.trim.
  rewrite (trimStart_of_clean (Js.trimEnd (Js.trimStart s))).
  - apply trimEnd_idem.
  - apply trimEnd_clean, trimStart_clean.
Qed.

Lemma lower_char_idem (c : ascii) :
  Js.lower_char (Js.lower_char c) = Js.lower_char c.
Proof. destruct c as [[] [] [] [] [] [] [] []]; by vm_compute. Qed.

Lemma lower_char_white (c : ascii) :
  Js.is_white (Js.lower_char c) = Js.is_white c.
Proof. destruct c as [[] [] [] [] [] [] [] []]; by vm_compute. Qed.

Lemma toLowerCase_idem (s : string) :
  Js.toLowerCase (Js.toLowerCase s) = Js.toLowerCase s.
Proof.
  induction s as [|c s IH]; simpl; [done|]. by rewrite lower_char_idem, IH.
Qed.

Lemma trimStart_lower (s : string) :
  Js.trimStart (Js.toLowerCase s) = Js.toLowerCase (Js.trimStart s).
Proof.
  induction s as [|c s IH]; simpl; [done|].
  rewrite lower_char_white. by destruct (Js.is_white c).
Qed.

Lemma trimEnd_lower (s : string) :
  Js.trimEnd (Js.toLowerCase s) = Js.toLowerCase (Js.trimEnd s).
Proof.
  induction s as [|c s IH]; simpl; [done|].
  rewrite IH, lower_char_white.
  destruct (Js.trimEnd s); simpl; [by destruct (Js.is_white c) | done].
Qed.

Lemma trim_lower (s : string) :
  Js.trim (Js.toLowerCase s) = Js.toLowerCase (Js.trim s).
Proof. unfold Js.trim. by rewrite trimStart_lower, trimEnd_lower. Qed.



(** ** The category map *)

Lemma categoryMap_snoc (categories : list category) (cat : category) :
  categoryMap (categories ++ [cat])
  = <[Js.toLowerCase (category_name cat) := category_id cat]> (categoryMap categories).
Proof. unfold categoryMap. by rewrite foldl_app. Qed.

Lemma categoryMap_lookup (categories : list category) (key : string) :
  categoryMap categories !! key
  = category_id <$>
      last (filter (fun cat => Js.toLowerCase (category_name cat) = key) categories).
Proof.
  induction categories as [|cat categories IH] using rev_ind; [done|].
  rewrite categoryMap_snoc, filter_app, lookup_insert.
  case_decide as Hkey.
  - rewrite filter_cons_True, filter_nil by done. by rewrite last_snoc.
  - rewrite filter_cons_False, filter_nil, app_nil_r by done. exact IH.
Qed.


Lemma resolve_Some (categories : list category) (key : string) (id : Z) :
  resolve (categoryMap categories) key = Some id ->
  id ≠ 0%Z /\ exists cat, cat ∈ categories /\ category_id cat = id.
Proof.
  unfold resolve. rewrite categoryMap_lookup.
  destruct (last _) as [cat|] eqn:E; simpl; [|done].
  destruct (Z.eqb_spec (category_id cat) 0); [done|]. intros [= <-].
  split; [done|]. exists cat. split; [|done].
  by apply last_elem_of, list_elem_of_filter in E as [_ Hin].
Qed.

(** ** What the loop sends *)

Lemma sent_app (a b : list event) : sent (a ++ b)%list = (sent a ++ sent b)%list.
Proof.
  induction a as [|ev a IH]; simpl; [done|].
  destruct ev; simpl; by rewrite ?IH.
Qed.

Section TraceFacts.

Variable insert_error : list Db.row -> Db.row -> option string.
Variable categories : list category.
Variable columnMap : gmap string string.

Abbreviation step := (process_row insert_error categories columnMap).
Abbreviation steps := (process_rows insert_error categories columnMap).

(** A turn logs its row and sends at most one INSERT, of a validated row. *)
Lemma process_row_trace (i : nat) (product : gmap string Js.value) (st : state) :
  exists tail,
    trace (step i product st) = (trace st ++ ProcessingRow (i + 2) :: tail)%list /\
    (tail = [] \/
     exists r ok, tail = [Insert r ok] /\ validated categories r).
Proof.
  unfold process_row.
  destruct (String.eqb (getProductName columnMap product) ""
            || String.eqb (getCategoryName columnMap product) "") eqn:E1;
    [exists []; simpl; by eauto|].
  destruct (Js.isNaN (getPrice columnMap product)
            || Js.le0 (getPrice columnMap product)) eqn:E2;
    [exists []; simpl; by eauto|].
  destruct (Js.isNaN (getStock columnMap product)
            || Js.lt0 (getStock columnMap product)) eqn:E3;
    [exists []; simpl; by eauto|].
  destruct (resolve _ _) as [id|] eqn:E4; [|exists []; simpl; by eauto].
  apply orb_false_iff in E1 as [E1 _], E2 as [E2 E2'], E3 as [E3 E3'].
  apply String.eqb_neq in E1. apply resolve_Some in E4 as [Hid Hcat].
  assert (validated categories
            (Db.Row (getProductName columnMap product) id
                    (getPrice columnMap product) (getStock columnMap product))) as Hv.
  { repeat split; simpl; try done. unfold getProductName. apply trim_idem. }
  unfold insert_product, Db.insert. simpl.
  destruct (insert_error _ _) as [message|]; [|destruct (Db.txn (client st))];
    simpl; rewrite <- app_assoc; simpl; eexists; (split; [done|]); right; eauto.
Qed.

(** The loop reaches every row once, in the order of the sheet, whatever
    the rows before it did, and sends only INSERTs of validated rows. *)
Lemma process_rows_trace (products : list (gmap string Js.value)) :
  forall (i : nat) (st : state),
    exists middle,
      trace (steps i products st) = (trace st ++ middle)%list /\
      Forall (fun ev => loop_event ev = true) middle /\
      reached middle = seq (i + 2) (length products) /\
      Forall (validated categories) (sent middle).
Proof.
  induction products as [|product rest IH]; intros i st; simpl.
  - exists []. rewrite app_nil_r. by repeat split.
  - destruct (process_row_trace i product st) as (tail & Ht & Htail).
    destruct (IH (S i) (step i product st)) as (middle & Hm & Hloop & Hreached & Hsent).
    exists (ProcessingRow (i + 2) :: tail ++ middle)%list.
    rewrite Hm, Ht, <- app_assoc. simpl. split; [done|].
    destruct Htail as [-> | (r & ok & -> & Hv)]; simpl.
    + repeat split; try done; [by constructor | by rewrite Hreached].
    + repeat split; [by repeat constructor | by rewrite Hreached | by constructor].
Qed.

End TraceFacts.

(** ** Every call *)

(** membership in a list that is written out *)
Ltac in_list := repeat first [apply list_elem_of_here | apply list_elem_of_further].

Ltac not_in_list :=
  let H := fresh in
  intros H; repeat (apply elem_of_cons in H as [H|H]; [discriminate|]);
  by apply not_elem_of_nil in H.

Section RunFacts.

Variable insert_error : list Db.row -> Db.row -> option string.

(** What the loop leaves when it is entered from [entry]. *)
Lemma after_rows_spec (categories : list category) (columnMap : gmap string string)
    (table : list Db.row) (products : list (gmap string Js.value)) :
  let st := process_rows insert_error categories columnMap 0 products (entry table) in
  exists (fails : list (nat * string)) (middle : list event),
    errors st = map numbered fails /\
    processedCount st = length (accepted middle) /\
    client st = Db.Session table (Some (accepted middle)) /\
    trace st = ([Begin; SelectCategories] ++ middle)%list /\
    length fails + length (accepted middle) = length products /\
    Forall (fun j => j < length products) (fails.*1) /\
    StronglySorted lt (fails.*1) /\
    Forall (fun ev => loop_event ev = true) middle /\
    reached middle = seq 2 (length products) /\
    Forall (validated categories) (sent middle).
Proof.
  intros st.
  destruct (process_rows_spec insert_error categories columnMap products 0
              (entry table) [] eq_refl)
    as (fails & written & E1 & E2 & E3 & E4 & E5 & E6 & E7).
  destruct (process_rows_trace insert_error categories columnMap products 0
              (entry table))
    as (middle & Hm & Hloop & Hreached & Hsent).
  fold st in E1, E2, E3, E4, Hm. simpl in E1, E2, E3, E4, Hm.
  assert (accepted middle = written) as Hw.
  { rewrite Hm in E4. by simpl in E4. }
  exists fails, middle. rewrite Hw. repeat split; try done.
  eapply Forall_impl; [exact E6|]. simpl. lia.
Qed.

(** The shape of every call: BEGIN and the SELECT, the events of the loop,
    one of the four endings, and the release of the client.  The products
    table at the end is the old table followed by the rows of the accepted
    INSERTs; COMMIT is sent exactly when there is such a row. *)
Lemma run_shape (categories : list category) (columnMap : gmap string string)
    (table : list Db.row) (products : list (gmap string Js.value)) :
  let r := processProducts insert_error categories columnMap table products in
  exists (middle ending : list event),
    events r = ([Begin; SelectCategories] ++ middle ++ ending ++ [Release])%list /\
    Forall (fun ev => loop_event ev = true) middle /\
    ending ∈ endings /\
    store r = (table ++ accepted middle)%list /\
    (Commit ∈ ending <-> accepted middle ≠ []) /\
    Forall (validated categories) (sent middle) /\
    (middle = [] \/ reached middle = seq 2 (length products)) /\
    (forall report, outcome r = Return report ->
       report = success_report (length products) /\
       length (accepted middle) = length products /\ products ≠ [] /\
       ending = [Commit]).
Proof.
  intros r. subst r.
  assert ([Rollback] ∈ endings) as Hend1 by (unfold endings; in_list).
  assert (Commit ∉ [Rollback]) as Hno1 by not_in_list.
  destruct categories as [|cat cats].
  { exists [], [Rollback]. simpl. rewrite app_nil_r.
    repeat split; try done; by left. }
  destruct (missingFields columnMap) as [|f fs] eqn:Hmiss.
  2:{ exists [], [Rollback]. unfold processProducts, try_block. rewrite Hmiss. simpl.
      rewrite app_nil_r. repeat split; try done; by left. }
  rewrite (processProducts_loop insert_error (cat :: cats) columnMap table products)
    by done.
  destruct (after_rows_spec (cat :: cats) columnMap table products)
    as (fails & middle & E1 & E2 & E3 & E4 & E5 & E6 & E7 & Hloop & Hreached & Hsent).
  unfold decide_outcome. rewrite E1, E2, length_map.
  destruct ((0 <? length fails)%nat && (0 <? length (accepted middle))%nat) eqn:B1.
  - apply andb_true_iff in B1 as [B1 B2].
    apply Nat.ltb_lt in B1, B2.
    exists middle, [Commit; Rollback]. simpl. rewrite E3, E4. simpl.
    rewrite <- !app_assoc. simpl.
    split_and!; try done.
    + unfold endings; in_list.
    + split; [|intros _; in_list].
      intros _ Hnil. rewrite Hnil in B2. simpl in B2. lia.
    + by right.
  - destruct (length products =? length fails)%nat eqn:B2.
    + apply Nat.eqb_eq in B2.
      assert (accepted middle = []) as Hnil
        by (apply length_zero_iff_nil; lia).
      exists middle, [Rollback; Rollback]. simpl. rewrite E3, E4, Hnil. simpl.
      rewrite <- !app_assoc, app_nil_r. simpl.
      split_and!; try done.
      * unfold endings; in_list.
      * split; [|done]. not_in_list.
      * by right.
    + apply Nat.eqb_neq in B2.
      assert (length fails = 0) as Hfails.
      { apply andb_false_iff in B1 as [B1 | B1]; apply Nat.ltb_ge in B1; lia. }
      exists middle, [Commit]. simpl. rewrite E3, E4. simpl.
      rewrite <- !app_assoc. simpl.
      split_and!; try done.
      * unfold endings; in_list.
      * split; [|intros _; in_list].
        intros _ Hnil. rewrite Hnil in E5. simpl in E5. lia.
      * by right.
      * assert (length (accepted middle) = length products) as Hall by lia.
        intros report [= <-]. rewrite Hall. split_and!; try done.
        intros ->. simpl in *. lia.
Qed.

Lemma ending_quiet (ending : list event) :
  ending ∈ endings ->
  accepted (ending ++ [Release]) = [] /\ sent (ending ++ [Release]) = [] /\
  reached (ending ++ [Release]) = [].
Proof.
  unfold endings. intros H.
  repeat (apply elem_of_cons in H as [-> | H]; [done|]).
  by apply not_elem_of_nil in H.
Qed.

Lemma accepted_of_sent (P : Db.row -> Prop) (evs : list event) :
  Forall P (sent evs) -> Forall P (accepted evs).
Proof.
  induction evs as [|ev evs IH]; simpl; [done|].
  destruct ev as [| | |r [|]| | |]; simpl; try done.
  - intros H. inversion H; subst. constructor; auto.
  - intros H. inversion H; subst. auto.
Qed.

Lemma loop_events_only (ev : event) (middle : list event) :
  Forall (fun ev => loop_event ev = true) middle ->
  loop_event ev = false -> ev ∉ middle.
Proof.
  intros Hall Hev Hin. rewrite Forall_forall in Hall.
  specialize (Hall ev Hin). congruence.
Qed.


(** X5.  The statements of every call follow one protocol: BEGIN, the
    SELECT of the categories, then only rows reached and INSERTs sent, then
    ROLLBACK, COMMIT, COMMIT and ROLLBACK, or ROLLBACK twice, and last the
    release of the client, which therefore happens once on every path. *)
Theorem statement_protocol (categories : list category)
    (columnMap : gmap string string) (table : list Db.row)
    (products : list (gmap string Js.value)) :
  exists (middle ending : list event),
    events (processProducts insert_error categories columnMap table products)
      = ([Begin; SelectCategories] ++ middle ++ ending ++ [Release])%list /\
    Forall (fun ev => loop_event ev = true) middle /\
    ending ∈ endings.
Proof.
  destruct (run_shape categories columnMap table products)
    as (middle & ending & Hev & Hloop & Hend & _).
  by exists middle, ending.
Qed.


(** X7.  No row error stops the loop: once the categories and the columns
    are there, a call reaches every row of the sheet, once and in order,
    under the display numbers 2, 3, ... *)
Theorem every_row_is_reached (categories : list category)
    (columnMap : gmap string string) (table : list Db.row)
    (products : list (gmap string Js.value)) :
  categories ≠ [] ->
  missingFields columnMap = [] ->
  reached (events (processProducts insert_error categories columnMap table products))
    = seq 2 (length products).
Proof.
  intros Hcat Hmiss.
  rewrite (processProducts_loop insert_error _ _ _ _ Hcat Hmiss).
  destruct (after_rows_spec categories columnMap table products)
    as (fails & middle & _ & _ & _ & E4 & _ & _ & _ & _ & Hreached & _).
  unfold decide_outcome.
  repeat case_match; simplify_eq; simpl; rewrite !reached_app, E4; simpl;
    by rewrite Hreached, !app_nil_r.
Qed.

(** X8.  When the loop ends, every row has given either one error or one
    counted product; the errors are in the order of their rows, and each
    carries the display number of a row of the sheet. *)
Theorem row_errors_in_order (categories : list category)
    (columnMap : gmap string string) (table : list Db.row)
    (products : list (gmap string Js.value)) :
  let st := process_rows insert_error categories columnMap 0 products (entry table) in
  length (errors st) + processedCount st = length products /\
  exists fails : list (nat * string),
    errors st = map numbered fails /\
    StronglySorted lt (fails.*1) /\
    Forall (fun i => i < length products) (fails.*1).
Proof.
  intros st.
  destruct (after_rows_spec categories columnMap table products)
    as (fails & middle & E1 & E2 & _ & _ & E5 & E6 & E7 & _).
  fold st in E1, E2. split.
  - rewrite E1, E2, length_map. exact E5.
  - by exists fails.
Qed.

(** X9.  A call returns a report only when there is at least one row and
    every row was inserted: the report then counts all the rows, COMMIT is
    the only ending, and the table has grown by one row for each row of the
    sheet. *)
Theorem report_means_all_inserted (categories : list category)
    (columnMap : gmap string string) (table : list Db.row)
    (products : list (gmap string Js.value)) (report : list (string * json)) :
  outcome (processProducts insert_error categories columnMap table products)
    = Return report ->
  products ≠ [] /\
  report = success_report (length products) /\
  (Rollback ∉ events (processProducts insert_error categories columnMap table products)) /\
  exists added,
    store (processProducts insert_error categories columnMap table products)
      = (table ++ added)%list /\
    length added = length products.
Proof.
  intros Hret.
  destruct (run_shape categories columnMap table products)
    as (middle & ending & Hev & Hloop & _ & Hstore & _ & _ & _ & Hreport).
  destruct (Hreport report Hret) as (-> & Hlen & Hne & ->).
  split_and!; try done.
  - rewrite Hev. simpl. intros Hin.
    do 2 (apply elem_of_cons in Hin as [Hin | Hin]; [discriminate|]).
    apply elem_of_app in Hin as [Hin | Hin];
      [by apply (loop_events_only Rollback middle Hloop) in Hin|].
    revert Hin. not_in_list.
  - by exists (accepted middle).
Qed.

(** The call that finds a required column missing. *)
Lemma processProducts_missing (categories : list category) (headers : list string)
    (table : list Db.row) (products : list (gmap string Js.value)) :
  categories ≠ [] ->
  absent headers ≠ [] ->
  processProducts insert_error categories (columnMap headers) table products
  = Run (Throw (missing_columns_message (absent headers))) table
        [Begin; SelectCategories; Rollback; Release].
Proof.
  intros Hcat Habs. unfold processProducts, try_block.
  destruct categories as [|cat cats]; [done|].
  rewrite missingFields_absent.
  by destruct (absent headers).
Qed.

(** A call that throws after an INSERT was accepted throws the error of
    the partial import, with the number of accepted INSERTs. *)
Lemma throw_after_insert (categories : list category) (columnMap : gmap string string)
    (table : list Db.row) (products : list (gmap string Js.value)) (message : string) :
  let r := processProducts insert_error categories columnMap table products in
  outcome r = Throw message ->
  accepted (events r) ≠ [] ->
  exists errs, errs ≠ [] /\
    message = partial_message (length (accepted (events r))) errs.
Proof.
  intros r. subst r.
  destruct categories as [|cat cats]; [done|].
  destruct (missingFields columnMap) as [|f fs] eqn:Hmiss.
  2:{ unfold processProducts, try_block. rewrite Hmiss. by simpl. }
  rewrite (processProducts_loop insert_error (cat :: cats) columnMap table products)
    by done.
  destruct (after_rows_spec (cat :: cats) columnMap table products)
    as (fails & middle & E1 & E2 & E3 & E4 & E5 & _).
  unfold decide_outcome. rewrite E1, E2, length_map.
  destruct ((0 <? length fails)%nat && (0 <? length (accepted middle))%nat) eqn:B1.
  - apply andb_true_iff in B1 as [B1 _]. apply Nat.ltb_lt in B1.
    simpl. rewrite E4. simpl. rewrite !accepted_app. simpl. rewrite !app_nil_r.
    intros [= <-] _. exists (map numbered fails). split; [|done].
    intros Hnil. apply (f_equal length) in Hnil. rewrite length_map in Hnil.
    simpl in Hnil. lia.
  - destruct (length products =? length fails)%nat eqn:B2; [|done].
    apply Nat.eqb_eq in B2.
    simpl. rewrite E4. simpl. rewrite !accepted_app. simpl. rewrite !app_nil_r.
    intros _ Hne. exfalso. apply Hne, length_zero_iff_nil. lia.
Qed.

End RunFacts.

(** ** The upload *)

Section UploadFacts.

Variable insert_error : list Db.row -> Db.row -> option string.
Variable categories : list category.

Abbreviation handler := (upload insert_error categories).

Abbreviation imported := (import_of insert_error categories).

(** With data rows in the sheet the handler runs the import on them, with
    the columns of the first row, deletes the file and answers with the
    report or with the message of the error. *)
Lemma upload_with_data (filePath : string) (w : world)
    (productData : list (list (string * Js.value))) :
  has_data w filePath productData ->
  handler (Some filePath) w
  = (inr (respond (outcome (imported w productData))),
     World (delete filePath (files w))
           (store (imported w productData))
           (statements w ++ events (imported w productData))).
Proof.
  intros (wb & c & range & Hfile & Hsheet & Hws & Hdata).
  destruct productData as [|firstRow rest]; [done|].
  unfold import_of, upload, try_catch, bind, readFile. rewrite Hfile.
  rewrite bool_decide_eq_true_2 by done. simpl. rewrite Hws. simpl.
  unfold call_processProducts, unlinkSync.
  destruct (outcome _) eqn:E; simpl; by rewrite Hfile.
Qed.

(** Without them the handler answers 400 or 500, deletes the file and
    leaves the database alone. *)
Lemma upload_without_data (filePath : string) (w : world) :
  (forall productData, ~ has_data w filePath productData) ->
  exists code message,
    handler (Some filePath) w
    = (inr (error_response code message),
       World (delete filePath (files w)) (products_table w) (statements w)) /\
    (code = 400 \/ code = 500) /\
    (code = 500 <-> ~ exists wb, files w !! filePath = Some (inr wb)).
Proof.
  intros Hno. destruct w as [fs tbl stm]. simpl in *.
  unfold upload, try_catch, bind, readFile, existsSync, unlinkSync. simpl.
  destruct (fs !! filePath) as [[message|wb]|] eqn:Hfile; simpl.
  - rewrite Hfile, bool_decide_eq_true_2 by eauto. simpl. rewrite Hfile.
    eexists 500, _. split_and!; [done | by right | ].
    split; [|done]. intros _ (wb & [=]).
  - case_bool_decide as Hsheet; simpl; rewrite ?Hfile.
    2:{ eexists 400, _. split_and!; [done | by left |].
        split; [done|]. intros []. eauto. }
    destruct (Sheets wb !! "Products") as [[[[|c range]|] [message|data]]|] eqn:Hws;
      simpl; rewrite ?Hfile; simpl.
    all: try (eexists 400, _; split_and!; [done | by left |];
              split; [done|]; intros []; by eauto).
    destruct data as [|firstRow rest]; simpl; rewrite ?Hfile.
    + eexists 400, _. split_and!; [done | by left |].
      split; [done|]. intros []. eauto.
    + exfalso. apply (Hno (firstRow :: rest)).
      exists wb, c, range. by split_and!.
  - rewrite Hfile, bool_decide_eq_false_2 by (by intros [? [=]]). simpl.
    rewrite delete_id by done.
    eexists 500, _. split_and!; [done | by right | ].
    split; [|done]. intros _ (wb & [=]).
Qed.

Lemma has_data_dec (filePath : string) (w : world) :
  (exists productData, has_data w filePath productData) \/
  (forall productData, ~ has_data w filePath productData).
Proof.
  unfold has_data.
  destruct (files w !! filePath) as [[message|wb]|] eqn:Hfile;
    try (right; by intros ? (? & ? & ? & [=] & _)).
  destruct (decide ("Products" ∈ SheetNames wb)) as [Hin|Hout].
  2:{ right. intros ? (? & ? & ? & [= <-] & ? & _). done. }
  destruct (Sheets wb !! "Products") as [[[[|c range]|] [message|[|first rest]]]|]
    eqn:Hws.
  all: try (right; intros ? (? & ? & ? & [= <-] & _ & Hws' & Hne);
            rewrite Hws in Hws'; by simplify_eq).
  left. exists (first :: rest), wb, c, range. by split_and!.
Qed.

(** X10.  The handler never lets an error escape and never leaves the
    uploaded file behind: whatever the file holds and whatever the import
    does, it answers, and afterwards the file is gone while every other file
    is as it was. *)
Theorem upload_answers_and_removes_file (file : option string) (w : world) :
  exists resp w',
    handler file w = (inr resp, w') /\
    files w' = match file with
               | Some filePath => delete filePath (files w)
               | None => files w
               end.
Proof.
  destruct file as [filePath|]; [|by eexists _, _].
  destruct (has_data_dec filePath w) as [[productData Hdata] | Hno].
  - rewrite (upload_with_data _ _ _ Hdata). by eexists _, _.
  - destruct (upload_without_data _ _ Hno) as (code & message & -> & _).
    by eexists _, _.
Qed.

(** X11.  The handler goes to the database only for a workbook whose sheet
    [Products] has a range and at least one data row; it then runs one
    import, on all the rows, and answers 200 with the report of the import
    or 400 with the message of its error.  In every other case it answers
    400 or 500 and sends no statement. *)
Theorem upload_runs_import_only_on_data (file : option string) (w w' : world)
    (resp : response) :
  handler file w = (inr resp, w') ->
  (products_table w' = products_table w /\ statements w' = statements w /\
   (status resp = 400 \/ status resp = 500)) \/
  (exists filePath productData,
     file = Some filePath /\ has_data w filePath productData /\
     products_table w' = store (imported w productData) /\
     statements w' = (statements w ++ events (imported w productData))%list /\
     resp = respond (outcome (imported w productData))).
Proof.
  destruct file as [filePath|].
  2:{ intros [= <- <-]. left. split_and!; try done. by left. }
  destruct (has_data_dec filePath w) as [[productData Hdata] | Hno].
  - rewrite (upload_with_data _ _ _ Hdata). intros [= <- <-].
    right. by exists filePath, productData.
  - destruct (upload_without_data _ _ Hno) as (code & message & -> & Hcode & _).
    intros [= <- <-]. left. by split_and!.
Qed.

(** X12.  An answer 200 means that every data row of the sheet is now in
    the table: the body is the report that counts all the rows, and the
    table has grown by one row for each. *)
Theorem upload_200_means_all_inserted (file : option string) (w w' : world)
    (resp : response) :
  handler file w = (inr resp, w') ->
  status resp = 200 ->
  exists filePath productData added,
    file = Some filePath /\ has_data w filePath productData /\
    body resp = success_report (length productData) /\
    products_table w' = (products_table w ++ added)%list /\
    length added = length productData.
Proof.
  destruct file as [filePath|]; [|by intros [= <- <-]].
  destruct (has_data_dec filePath w) as [[productData Hdata] | Hno].
  2:{ destruct (upload_without_data _ _ Hno) as (code & message & -> & Hcode & _).
      intros [= <- <-]. simpl. lia. }
  rewrite (upload_with_data _ _ _ Hdata). intros [= <- <-] Hstatus.
  unfold import_of in *.
  destruct (run_shape insert_error categories
              (columnMap (Object_keys (default [] (head productData))))
              (products_table w) (properties <$> productData))
    as (middle & ending & _ & _ & _ & Hstore & _ & _ & _ & Hreport).
  destruct (outcome _) as [report|message] eqn:E; [|done].
  destruct (Hreport report eq_refl) as (-> & Hlen & _).
  rewrite length_fmap in Hlen.
  exists filePath, productData, (accepted middle). split_and!; try done.
  simpl. by rewrite length_fmap.
Qed.

(** X13.  An answer 400 does not mean that nothing was written.  When the
    table has changed under an answer 400, the import was partial: the
    error of the body is the text [Uploaded n products with ... errors] and
    the table has grown by those [n] rows, which are at least one. *)
Theorem upload_400_after_commit (file : option string) (w w' : world)
    (resp : response) :
  handler file w = (inr resp, w') ->
  status resp = 400 ->
  products_table w' ≠ products_table w ->
  exists n errs added,
    0 < n /\ errs ≠ [] /\
    body resp = [("error", JString (partial_message n errs))] /\
    products_table w' = (products_table w ++ added)%list /\ length added = n.
Proof.
  destruct file as [filePath|]; [|by intros [= <- <-]].
  destruct (has_data_dec filePath w) as [[productData Hdata] | Hno].
  2:{ destruct (upload_without_data _ _ Hno) as (code & message & -> & _).
      by intros [= <- <-]. }
  rewrite (upload_with_data _ _ _ Hdata). intros [= <- <-] Hstatus Hchanged.
  unfold import_of in *. simpl in Hchanged.
  destruct (run_shape insert_error categories
              (columnMap (Object_keys (default [] (head productData))))
              (products_table w) (properties <$> productData))
    as (middle & ending & Hev & _ & Hend & Hstore & _).
  destruct (ending_quiet ending Hend) as (Hacc & _).
  destruct (outcome _) as [report|message] eqn:E; [done|].
  assert (accepted (events (processProducts insert_error categories
            (columnMap (Object_keys (default [] (head productData))))
            (products_table w) (properties <$> productData))) = accepted middle) as Ha.
  { rewrite Hev. simpl. by rewrite accepted_app, Hacc, app_nil_r. }
  assert (accepted middle ≠ []) as Hne.
  { intros Hnil. rewrite Hstore, Hnil, app_nil_r in Hchanged. done. }
  destruct (throw_after_insert insert_error categories _ _ _ message E)
    as (errs & Herrs & ->); [by rewrite Ha|].
  rewrite Ha. exists (length (accepted middle)), errs, (accepted middle).
  split_and!; try done.
  destruct (accepted middle); [done | simpl; lia].
Qed.

End UploadFacts.

(** ** The file filter *)

(** no point in the text *)
Abbreviation pointless s :=
  (Forall (fun c => (Js.code c =? 46)%nat = false) (list_ascii_of_string s)).

Lemma is_point (c : ascii) : (Js.code c =? 46)%nat = true -> c = "."%char.
Proof. destruct c as [[] [] [] [] [] [] [] []]; by vm_compute. Qed.

Lemma split_dot_nonempty (name : string) : split_dot name ≠ [].
Proof. destruct name as [|c r]; simpl; [done|]. by repeat case_match. Qed.

Lemma split_dot_pointless (seg : string) : pointless seg -> split_dot seg = [seg].
Proof.
  induction seg as [|c seg IH]; simpl; [done|].
  intros H. inversion H as [|? ? Hc Hrest]; subst. by rewrite Hc, IH.
Qed.

Lemma split_dot_app (stem seg : string) :
  split_dot (stem ++ "." ++ seg) = (split_dot stem ++ split_dot seg)%list.
Proof.
  induction stem as [|c stem IH]; [done|].
  rewrite append_cons. simpl. rewrite IH.
  destruct (Js.code c =? 46)%nat; [done|].
  pose proof (split_dot_nonempty stem). by destruct (split_dot stem).
Qed.

Lemma concat_cons (sep x y : string) (l : list string) :
  String.concat sep (x :: y :: l) = x ++ sep ++ String.concat sep (y :: l).
Proof. reflexivity. Qed.

Lemma concat_snoc (sep x : string) (l : list string) :
  l ≠ [] -> String.concat sep (l ++ [x]) = String.concat sep l ++ sep ++ x.
Proof.
  induction l as [|y l IH]; [done|]. intros _.
  destruct l as [|z l]; [done|].
  change ((y :: z :: l) ++ [x])%list with (y :: z :: (l ++ [x])%list).
  rewrite !concat_cons.
  change (z :: (l ++ [x])%list) with ((z :: l) ++ [x])%list.
  rewrite IH by done. by rewrite !append_assoc.
Qed.

(** A name is its parts joined by points, and no part has a point. *)
Lemma split_dot_join (name : string) :
  String.concat "." (split_dot name) = name /\ Forall (fun seg => pointless seg) (split_dot name).
Proof.
  induction name as [|c r IH]; simpl; [by repeat constructor|].
  destruct IH as [IH1 IH2].
  destruct (Js.code c =? 46)%nat eqn:Hc.
  - apply is_point in Hc as ->. split; [|by repeat constructor].
    pose proof (split_dot_nonempty r).
    destruct (split_dot r) as [|s rest] eqn:E; [done|].
    rewrite concat_cons, IH1. reflexivity.
  - pose proof (split_dot_nonempty r).
    destruct (split_dot r) as [|s rest] eqn:E; [done|].
    apply Forall_cons in IH2 as [Hs Hrest]. split.
    + destruct rest as [|s' rest]; [simpl in *; by rewrite IH1|].
      rewrite concat_cons in *. by rewrite append_cons, IH1.
    + constructor; [|done]. simpl. by constructor.
Qed.

(** The last part of a name is what follows its last point, the whole name
    when it has none. *)
Lemma last_split_dot (name seg : string) :
  last (split_dot name) = Some seg <->
  pointless seg /\ (name = seg \/ exists stem, name = stem ++ "." ++ seg).
Proof.
  split.
  - intros Hlast. destruct (split_dot_join name) as [Hjoin Hparts].
    apply last_Some in Hlast as [init Hinit]. rewrite Hinit in Hjoin, Hparts.
    apply Forall_app in Hparts as [_ Hseg]. inversion Hseg; subst. split; [done|].
    destruct init as [|x init]; [by left|]. right.
    exists (String.concat "." (x :: init)). by rewrite <- concat_snoc.
  - intros [Hseg [-> | [stem ->]]].
    + by rewrite split_dot_pointless.
    + by rewrite split_dot_app, (split_dot_pointless seg), last_snoc.
Qed.

(** X14.  The file filter lets a file in exactly when its declared type is
    the one of [.xlsx] workbooks or its name ends in [.xlsx], in these
    letters; a name that is [xlsx] and nothing else passes as well, since a
    name without a point is its own last part. *)
Theorem fileFilter_accepts (mimetype originalname : string) :
  fileFilter mimetype originalname = None <->
  mimetype = xlsx_mimetype \/ originalname = "xlsx" \/
  exists stem, originalname = stem ++ ".xlsx".
Proof.
  unfold fileFilter.
  destruct (String.eqb_spec mimetype xlsx_mimetype) as [-> | Hmime]; simpl.
  { split; [by left | done]. }
  case_bool_decide as Hlast; simpl.
  - apply last_split_dot in Hlast as [_ Hname]. split; [by right | done].
  - split; [done|]. intros [? | Hname]; [done|]. exfalso. apply Hlast.
    apply last_split_dot. split; [by repeat constructor | done].
Qed.

(** ** The columns of the first row *)

(** [Object.keys] lists every key of the object, once each. *)
Lemma Object_keys_perm (obj : list (string * Js.value)) :
  Object_keys obj ≡ₚ obj.*1.
Proof.
  unfold Object_keys. rewrite merge_sort_Permutation.
  induction (obj.*1) as [|k keys IH]; [done|]. simpl.
  destruct (array_index k) as [n|] eqn:E; simpl.
  - rewrite filter_cons_False by (by rewrite E). by rewrite IH.
  - rewrite filter_cons_True by done. by rewrite <- Permutation_middle, IH.
Qed.

Section FirstRow.

Variable insert_error : list Db.row -> Db.row -> option string.
Variable categories : list category.


End FirstRow.

(** ** Cells that are not there *)

Section BlankCells.

Variable insert_error : list Db.row -> Db.row -> option string.
Variable categories : list category.
Variable columnMap : gmap string string.

Abbreviation step := (process_row insert_error categories columnMap).

(** X16.  A row that has a name and a category but no price cell is
    rejected for its price, which reads as 0.  A row without a stock cell is
    not rejected for it: its stock reads as 0, and when the other checks pass
    the INSERT of the row is sent with the stock 0. *)
Theorem blank_numeric_cells (i : nat) (product : gmap string Js.value) (st : state) :
  getProductName columnMap product ≠ "" ->
  getCategoryName columnMap product ≠ "" ->
  (product !! Js.property_key (columnMap !! "price") = None ->
   getPrice columnMap product = Js.Finite 0 0 /\
   errors (step i product st) = (errors st ++ [row_error (i + 2) bad_price])%list /\
   sent (trace (step i product st)) = sent (trace st)) /\
  (product !! Js.property_key (columnMap !! "stock") = None ->
   Js.isNaN (getPrice columnMap product) = false ->
   Js.le0 (getPrice columnMap product) = false ->
   forall id,
     resolve (categoryMap categories)
             (Js.toLowerCase (getCategoryName columnMap product)) = Some id ->
     getStock columnMap product = Js.Finite 0 0 /\
     sent (trace (step i product st))
     = (sent (trace st)
          ++ [Db.Row (getProductName columnMap product) id
                     (getPrice columnMap product) (Js.Finite 0 0)])%list).
Proof.
  intros Hname Hcat.
  apply String.eqb_neq in Hname, Hcat. split.
  - intros Hblank.
    assert (getPrice columnMap product = Js.Finite 0 0) as Hprice.
    { unfold getPrice, Js.get. by rewrite Hblank. }
    unfold process_row. rewrite Hname, Hcat, Hprice. simpl.
    split_and!; try done. by rewrite sent_app, app_nil_r.
  - intros Hblank Hnan Hle id Hid.
    assert (getStock columnMap product = Js.Finite 0 0) as Hstock.
    { unfold getStock, Js.get. by rewrite Hblank. }
    split; [done|].
    unfold process_row. rewrite Hname, Hcat, Hnan, Hle, Hstock, Hid. simpl.
    unfold insert_product, Db.insert. simpl.
    destruct (insert_error _ _); [|destruct (Db.txn (client st))]; simpl;
      rewrite ?sent_app; simpl; by rewrite ?app_nil_r.
Qed.

End BlankCells.

(** ** The text of a count *)

(** every character of the text is a digit *)
Abbreviation digits s := (Forall (fun c => Js.is_digit c = true) (list_ascii_of_string s)).

Lemma string_of_uint_digits (d : Decimal.uint) :
  digits (NilEmpty.string_of_uint d) /\
  forall acc : nat,
    Js.digits_val (Z.of_nat acc) (NilEmpty.string_of_uint d)
    = Z.of_nat (Nat.of_uint_acc d acc).
Proof.
  induction d as [|d [IH1 IH2]|d [IH1 IH2]|d [IH1 IH2]|d [IH1 IH2]|d [IH1 IH2]
                  |d [IH1 IH2]|d [IH1 IH2]|d [IH1 IH2]|d [IH1 IH2]|d [IH1 IH2]];
    simpl; (split; [by repeat constructor|]); intros acc; try done.
  all: rewrite <- IH2; f_equal; rewrite Nat.tail_mul_spec;
    unfold Js.digit_val; simpl; lia.
Qed.

Lemma span_digits (s : string) : digits s -> Js.span Js.is_digit s = (s, "").
Proof.
  induction s as [|c s IH]; simpl; [done|].
  intros H. apply Forall_cons in H as [Hc Hs]. by rewrite Hc, IH.
Qed.

Lemma digit_first (c : ascii) (r : string) :
  Js.is_digit c = true ->
  Js.trimStart (String c r) = String c r /\
  Js.take_sign (String c r) = (false, String c r).
Proof.
  intros Hc. destruct c as [[] [] [] [] [] [] [] []]; by vm_compute in Hc.
Qed.

Lemma digit_no_radix (c : ascii) :
  Js.is_digit c = true -> ((Js.code c =? 120)%nat || (Js.code c =? 88)%nat) = false.
Proof. destruct c as [[] [] [] [] [] [] [] []]; by vm_compute. Qed.

(** [parseInt] of a text of digits is the number that the digits write. *)
Lemma parseInt_digits (s : string) :
  s ≠ "" -> digits s -> Js.parseInt s = Js.Finite (Js.digits_val 0 s) 0.
Proof.
  destruct s as [|c r]; [done|]. intros _ H.
  pose proof (span_digits _ H) as Hspan.
  apply Forall_cons in H as [Hc Hr].
  destruct (digit_first c r Hc) as [Htrim Hsign].
  unfold Js.parseInt. rewrite Htrim, Hsign, Hspan.
  destruct r as [|x r']; [by destruct c as [[] [] [] [] [] [] [] []]|].
  apply Forall_cons in Hr as [Hx _].
  destruct c as [[] [] [] [] [] [] [] []]; try done.
  by rewrite digit_no_radix.
Qed.

(** The count that the database reports reads back as itself. *)
Lemma parseInt_show_nat (n : nat) :
  Js.parseInt (Js.show_nat n) = Js.Finite (Z.of_nat n) 0.
Proof.
  unfold Js.show_nat.
  assert (Js.digits_val 0 (NilZero.string_of_uint (Nat.to_uint n)) = Z.of_nat n
          /\ NilZero.string_of_uint (Nat.to_uint n) ≠ ""
          /\ digits (NilZero.string_of_uint (Nat.to_uint n))) as (Hval & Hne & Hdig).
  { pose proof (Unsigned.of_to n) as Hn. unfold Nat.of_uint in Hn.
    destruct (string_of_uint_digits (Nat.to_uint n)) as [Hd Hv].
    specialize (Hv 0). rewrite Hn in Hv.
    destruct (Nat.to_uint n) eqn:E; simpl in *; subst; split_and!;
      try done; by repeat constructor. }
  by rewrite parseInt_digits, Hval.
Qed.

(** ** The routes *)

Section RouteFacts.

Variable db_engine : Shop.engine.

Lemma filter_none_length {A : Type} (P : A -> Prop) `{forall x, Decision (P x)}
    (l : list A) :
  (length (filter P l) =? 0)%nat = true -> forall x, x ∈ l -> ~ P x.
Proof.
  intros Hlen x Hin HP. apply Nat.eqb_eq, length_zero_iff_nil in Hlen.
  assert (x ∈ filter P l) as Hx by (by apply list_elem_of_filter).
  rewrite Hlen in Hx. by apply not_elem_of_nil in Hx.
Qed.

Lemma filter_none_positive {A : Type} (P : A -> Prop) `{forall x, Decision (P x)}
    (l : list A) :
  (0 <? length (filter P l))%nat = false -> forall x, x ∈ l -> ~ P x.
Proof.
  intros Hlen. apply (filter_none_length P l).
  apply Nat.ltb_ge in Hlen. apply Nat.eqb_eq. lia.
Qed.

Lemma filter_all {A : Type} (P : A -> Prop) `{forall x, Decision (P x)} (l : list A) :
  (forall x, x ∈ l -> P x) -> filter P l = l.
Proof.
  induction l as [|x l IH]; [done|]. intros Hall.
  rewrite filter_cons_True by (apply Hall; by left).
  f_equal. apply IH. intros y Hy. apply Hall. by right.
Qed.

(** X17.  A request of the two routers that is answered with a status of
    400 or more leaves both tables as they were, whatever the database
    reads, assigns or refuses. *)
Theorem error_reply_changes_nothing (req : request) (db : Shop.database) :
  400 <= Shop.code (handle db_engine req db).1 ->
  (handle db_engine req db).2 = db.
Proof.
  destruct db as [cats prods].
  destruct req; simpl;
    unfold create_category, update_category, delete_category, create_product,
      update_product, delete_product, guarded, refuse; simpl.
  all: repeat (case_match; simpl; try done; try lia).
  all: intros _; f_equal.
  - apply filter_all. intros c Hc.
    by eapply (filter_none_length (fun c => Shop.category_id c = _)) in Hc.
  - apply filter_all. intros p Hp.
    by eapply (filter_none_length (fun p => Shop.product_id p = _)) in Hp.
Qed.

(** An UPDATE by identifier, when the identifiers are unique, replaces one
    row and leaves the others. *)
Lemma replace_by_id (cats : list Shop.category) (row : Shop.category) (cid : Z) :
  NoDup (Shop.category_id <$> cats) ->
  (length (filter (fun c => Shop.category_id c = cid) cats) =? 0)%nat = false ->
  exists l1 c0 l2,
    cats = (l1 ++ c0 :: l2)%list /\ Shop.category_id c0 = cid /\
    ((fun c => if decide (Shop.category_id c = cid) then row else c) <$> cats)
    = (l1 ++ row :: l2)%list /\
    (forall c, c ∈ (l1 ++ l2)%list -> Shop.category_id c ≠ cid).
Proof.
  intros Hids Hlen.
  destruct (filter (fun c => Shop.category_id c = cid) cats) as [|c0 rest] eqn:E;
    [done|].
  assert (c0 ∈ filter (fun c => Shop.category_id c = cid) cats) as Hc0
    by (rewrite E; by left).
  apply list_elem_of_filter in Hc0 as [Hid Hin].
  apply list_elem_of_split in Hin as (l1 & l2 & ->).
  rewrite fmap_app, fmap_cons in Hids.
  apply NoDup_app in Hids as (_ & Hl1 & Hl2).
  apply NoDup_cons in Hl2 as [Hl2 _].
  assert (forall c, c ∈ (l1 ++ l2)%list -> Shop.category_id c ≠ cid) as Hother.
  { intros c Hc Heq. apply elem_of_app in Hc as [Hc | Hc].
    - apply (Hl1 (Shop.category_id c)); [by apply list_elem_of_fmap_2|].
      rewrite Heq, <- Hid. by left.
    - apply Hl2. rewrite Hid, <- Heq. by apply list_elem_of_fmap_2. }
  exists l1, c0, l2. split_and!; try done.
  rewrite fmap_app, fmap_cons. rewrite decide_True by done.
  f_equal; [|f_equal].
  - rewrite <- (list_fmap_id l1) at 2. apply list_fmap_ext. intros i c Hc. simpl.
    rewrite decide_False; [done|]. apply Hother, elem_of_app. left.
    by eapply list_elem_of_lookup_2.
  - rewrite <- (list_fmap_id l2) at 2. apply list_fmap_ext. intros i c Hc. simpl.
    rewrite decide_False; [done|]. apply Hother, elem_of_app. right.
    by eapply list_elem_of_lookup_2.
Qed.

Lemma handle_unique (req : request) (db : Shop.database) :
  fresh_ids db_engine ->
  unique_ids db -> unique_names db ->
  unique_ids (handle db_engine req db).2 /\ unique_names (handle db_engine req db).2.
Proof.
  intros Hfresh Hids Hnames. destruct db as [cats prods].
  unfold unique_ids, unique_names in *. simpl in *.
  destruct req as [name desc | id name desc | id | | | ]; simpl.
  - unfold create_category, refuse. simpl.
    destruct (Req.truthy name); simpl; [|done].
    destruct (0 <? length _)%nat eqn:Hcheck; simpl; [done|].
    destruct (Shop.category_refused _ _ _); simpl; [done|].
    rewrite !fmap_app. simpl. split.
    + apply NoDup_app. split_and!; [done| |apply NoDup_singleton].
      intros x Hx Hx'. apply list_elem_of_singleton in Hx' as ->.
      by apply (Hfresh (Shop.Database cats prods)).
    + apply NoDup_app. split_and!; [done| |apply NoDup_singleton].
      intros x Hx Hx'. apply list_elem_of_singleton in Hx' as ->.
      apply list_elem_of_fmap in Hx as (c & Hc & Hin).
      by eapply (filter_none_positive _ _ Hcheck c Hin).
  - unfold update_category, guarded, refuse. simpl.
    destruct (Req.truthy name); simpl; [|done].
    destruct (Shop.read_integer _ id) as [message|cid]; simpl; [done|].
    destruct (length _ =? 0)%nat eqn:Hfound; simpl; [done|].
    destruct (0 <? length _)%nat eqn:Hdup; simpl; [done|].
    destruct (Shop.category_update_refused _ _ _); simpl; [done|].
    destruct (replace_by_id cats
                (Shop.Category cid (Req.text name) (Req.param (Req.or_null desc)))
                cid Hids Hfound)
      as (l1 & c0 & l2 & -> & Hid & -> & Hother).
    rewrite !fmap_app, !fmap_cons in *. simpl. rewrite <- Hid. split; [done|].
    apply NoDup_app in Hnames as (Hn1 & Hn12 & Hn2).
    apply NoDup_cons in Hn2 as [_ Hn2].
    assert (forall c, c ∈ (l1 ++ l2)%list ->
              Js.toLowerCase (Shop.category_name c) ≠ Js.toLowerCase (Req.text name))
      as Hfree.
    { intros c Hc Heq.
      apply (filter_none_positive _ _ Hdup c).
      - apply list_elem_of_filter. split; [done|].
        apply elem_of_app in Hc as [Hc | Hc]; apply elem_of_app;
          [by left | right; by right].
      - by apply Hother. }
    apply NoDup_app. split_and!; [done| |].
    + intros x Hx Hx'. apply elem_of_cons in Hx' as [-> | Hx'].
      * apply list_elem_of_fmap in Hx as (c & Hc & Hin).
        apply (Hfree c); [apply elem_of_app; by left | done].
      * apply (Hn12 x Hx). by right.
    + apply NoDup_cons. split; [|done].
      intros Hx. apply list_elem_of_fmap in Hx as (c & Hc & Hin).
      apply (Hfree c); [apply elem_of_app; by right | done].
  - unfold delete_category, guarded, refuse. simpl.
    repeat (case_match; simpl; try done).
    all: split; (eapply sublist_NoDup; [eassumption|]);
      apply fmap_sublist, sublist_filter.
  - unfold create_product, guarded, refuse. by repeat (case_match; simpl).
  - unfold update_product, guarded, refuse. by repeat (case_match; simpl).
  - unfold delete_product, guarded, refuse. by repeat (case_match; simpl).
Qed.

(** X18.  The names of the categories stay unique without regard to case,
    and their identifiers stay unique, through every sequence of requests to
    the two routers, provided that the database gives a new category an
    identifier that is not taken: a category is created or renamed only
    after the check for a category of the same lowercased name. *)
Theorem category_names_stay_unique (reqs : list request) (db : Shop.database) :
  fresh_ids db_engine ->
  unique_ids db -> unique_names db ->
  unique_ids (handle_all db_engine reqs db) /\
  unique_names (handle_all db_engine reqs db).
Proof.
  intros Hfresh. revert db. unfold handle_all.
  induction reqs as [|req reqs IH]; intros db Hids Hnames; simpl; [done|].
  destruct (handle_unique req db Hfresh Hids Hnames) as [Hids' Hnames'].
  by apply IH.
Qed.

Lemma handle_referential (req : request) (db : Shop.database) :
  referential db -> referential (handle db_engine req db).2.
Proof.
  intros Href. destruct db as [cats prods]. unfold referential in *. simpl in *.
  destruct req as [name desc | id name desc | id
                  | pname pcat pprice pstock | id pname pcat pprice pstock | id]; simpl.
  - unfold create_category, refuse. simpl.
    repeat (case_match; simpl; try done).
    intros p Hp. destruct (Href p Hp) as (c & Hc & Hid).
    exists c. split; [apply elem_of_app; by left | done].
  - unfold update_category, guarded, refuse. simpl.
    repeat (case_match; simpl; try done).
    intros p Hp. destruct (Href p Hp) as (c & Hc & Hid).
    eexists. split; [by apply list_elem_of_fmap_2|].
    simpl. case_decide as Hz; simpl; [by rewrite <- Hz | done].
  - unfold delete_category, guarded, refuse. simpl.
    destruct (Shop.read_integer _ id) as [message|cid]; simpl; [done|].
    rewrite parseInt_show_nat. simpl.
    destruct (0 <? Z.of_nat _)%Z eqn:Hcount; simpl; [done|].
    assert (forall p, p ∈ prods -> Shop.product_category p ≠ cid) as Hfree.
    { apply (filter_none_length (fun p => Shop.product_category p = cid) prods).
      apply Nat.eqb_eq. apply Z.ltb_ge in Hcount. lia. }
    destruct (Shop.category_delete_refused _ _ _); simpl; [done|].
    assert (forall p, p ∈ prods ->
      exists c, c ∈ filter (fun c => Shop.category_id c ≠ cid) cats /\
                Shop.category_id c = Shop.product_category p) as Hkept.
    { intros p Hp. destruct (Href p Hp) as (c & Hc & Hid).
      exists c. split; [|done]. apply list_elem_of_filter. split; [|done].
      rewrite Hid. by apply Hfree. }
    by case_match.
  - unfold create_product, guarded, refuse. simpl.
    destruct (product_input_error _ _ _ _); simpl; [done|].
    destruct (Shop.read_integer _ _) as [message|cid]; simpl; [done|].
    destruct (length _ =? 0)%nat eqn:Hfound; simpl; [done|].
    destruct (Shop.product_refused _ _ _); simpl; [done|].
    intros p Hp. apply elem_of_app in Hp as [Hp | Hp]; [by apply Href|].
    apply list_elem_of_singleton in Hp as ->. simpl.
    unfold category_by_id in Hfound. simpl in Hfound.
    destruct (filter _ cats) as [|c rest] eqn:E; [done|].
    assert (c ∈ filter (fun c => Shop.category_id c = cid) cats) as Hc
      by (rewrite E; by left).
    apply list_elem_of_filter in Hc as [Hid Hin]. by exists c.
  - unfold update_product, guarded, refuse. simpl.
    destruct (product_input_error _ _ _ _); simpl; [done|].
    destruct (Shop.read_integer _ id) as [message|pid]; simpl; [done|].
    destruct (length _ =? 0)%nat; simpl; [done|].
    destruct (Shop.read_integer _ _) as [message|cid]; simpl; [done|].
    destruct (length _ =? 0)%nat eqn:Hfound; simpl; [done|].
    destruct (Shop.product_update_refused _ _ _); simpl; [done|].
    unfold category_by_id in Hfound. simpl in Hfound.
    destruct (filter _ cats) as [|c rest] eqn:E; [done|].
    assert (c ∈ filter (fun c => Shop.category_id c = cid) cats) as Hc
      by (rewrite E; by left).
    apply list_elem_of_filter in Hc as [Hid Hin].
    intros p Hp. apply list_elem_of_fmap in Hp as (p0 & -> & Hp0).
    case_decide; [by exists c | by apply Href].
  - unfold delete_product, guarded, refuse. simpl.
    repeat (case_match; simpl; try done).
    all: intros p Hp; apply list_elem_of_filter in Hp as [_ Hp]; by apply Href.
Qed.

(** X19.  Every product keeps referring to a category that is there,
    through every sequence of requests to the two routers: a product is
    created or changed only for a category that exists, and a category is
    deleted only when the count of its products reads as 0. *)
Theorem references_stay_valid (reqs : list request) (db : Shop.database) :
  referential db -> referential (handle_all db_engine reqs db).
Proof.
  revert db. unfold handle_all.
  induction reqs as [|req reqs IH]; intros db Href; simpl; [done|].
  by apply IH, handle_referential.
Qed.

(** X20.  The checks of the body of a product let through what is not a
    number: when the text of the price and the text of the stock do not
    start with a number, neither check refuses, and for a category that
    exists the INSERT is sent with the price and the stock as they came; the
    product is created unless the database refuses it. *)
Theorem unparsable_numbers_reach_database
    (product_name category_id price stock : Req.field) (db : Shop.database)
    (cid : Z) :
  Req.truthy product_name = true ->
  Req.truthy category_id = true ->
  price ≠ Req.Absent -> stock ≠ Req.Absent ->
  Js.isNaN (Js.parseFloat (Req.text price)) = true ->
  Js.isNaN (Js.parseInt (Req.text stock)) = true ->
  Shop.read_integer db_engine (Req.text category_id) = inr cid ->
  (exists c, c ∈ Shop.categories db /\ Shop.category_id c = cid) ->
  let row := Shop.Product (Shop.next_product_id db_engine db) (Req.text product_name)
               cid (Req.param price) (Req.param stock) in
  product_input_error product_name category_id price stock = None /\
  create_product db_engine product_name category_id price stock db
  = match Shop.product_refused db_engine db row with
    | Some message => (Shop.Reply 500 (Shop.Failure message), db)
    | None =>
        (Shop.Reply 201 (Shop.ProductRow row),
         Shop.Database (Shop.categories db) (Shop.products db ++ [row])%list)
    end.
Proof.
  intros Hname Hcat Hprice Hstock Hnanp Hnans Hread (c & Hc & Hid) row.
  assert (product_input_error product_name category_id price stock = None) as Hok.
  { unfold product_input_error. rewrite Hname, Hcat. simpl.
    destruct price; [done| | | |]; (destruct stock; [done| | | |]); simpl;
      destruct (Js.parseFloat _); try done; destruct (Js.parseInt _); done. }
  split; [done|].
  unfold create_product. rewrite Hok, Hread. simpl.
  assert ((length (category_by_id db cid) =? 0)%nat = false) as ->.
  { apply Nat.eqb_neq. intros Hlen. apply length_zero_iff_nil in Hlen.
    assert (c ∈ category_by_id db cid) as Hin by (by apply list_elem_of_filter).
    rewrite Hlen in Hin. by apply not_elem_of_nil in Hin. }
  done.
Qed.

(** X21.  A category that a product refers to is not deleted: the handler
    answers 400 and sends no DELETE.  A category without products is deleted,
    unless the database refuses, and the answer counts the rows deleted; when
    no category has the identifier the answer is 404. *)
Theorem delete_category_guard (id : string) (db : Shop.database) (cid : Z) :
  Shop.read_integer db_engine id = inr cid ->
  ((exists p, p ∈ Shop.products db /\ Shop.product_category p = cid) ->
   delete_category db_engine id db
   = (Shop.Reply 400
        (Shop.Failure "Cannot delete category because it has associated products"),
      db)) /\
  ((forall p, p ∈ Shop.products db -> Shop.product_category p ≠ cid) ->
   Shop.category_delete_refused db_engine db cid = None ->
   delete_category db_engine id db
   = (match category_by_id db cid with
      | [] => Shop.Reply 404 (Shop.Failure "Category not found")
      | found => Shop.Reply 200 (Shop.Deleted (length found))
      end,
      Shop.Database (filter (fun c => Shop.category_id c ≠ cid) (Shop.categories db))
                    (Shop.products db))).
Proof.
  intros Hread. unfold delete_category. rewrite Hread. simpl.
  rewrite parseInt_show_nat. simpl. split.
  - intros (p & Hp & Hcat).
    assert (p ∈ filter (fun p => Shop.product_category p = cid) (Shop.products db))
      as Hin by (by apply list_elem_of_filter).
    destruct (filter _ (Shop.products db)) as [|q rest]; [by apply not_elem_of_nil in Hin|].
    done.
  - intros Hfree Hrefused.
    assert (filter (fun p => Shop.product_category p = cid) (Shop.products db) = []) as ->.
    { destruct (filter _ (Shop.products db)) as [|q rest] eqn:E; [done|].
      assert (q ∈ filter (fun p => Shop.product_category p = cid) (Shop.products db))
        as Hq by (rewrite E; by left).
      apply list_elem_of_filter in Hq as [Hq Hin]. by apply Hfree in Hin. }
    simpl. rewrite Hrefused. by destruct (category_by_id db cid).
Qed.

End RouteFacts.

(** ** The upload and the routes on samples *)

Lemma sample_has_data (productData : list (list (string * Js.value))) :
  productData ≠ [] -> has_data (sample_upload productData) sample_path productData.
Proof.
  intros Hne.
  exists (Workbook ["Products"]
            {[ "Products" := Worksheet (Some "A1:D3") (inr productData) ]}),
    "A"%char, "1:D3".
  split_and!; [| |reflexivity|done].
  - unfold sample_upload. simpl. apply lookup_singleton_eq.
  - simpl. by left.
Qed.

Example upload_widget :
  upload accept_all sample_categories (Some sample_path) (sample_upload [widget_cells])
  = (inr (Response 200 [("success", JBool true);
                        ("message", JString "Successfully uploaded 1 products")]),
     World ∅ [Db.Row "Widget" 1 (Js.Finite 999 (-2)) (Js.Finite 5 0)]
           [Begin; SelectCategories; ProcessingRow 2;
            Insert (Db.Row "Widget" 1 (Js.Finite 999 (-2)) (Js.Finite 5 0)) true;
            Commit; Release]).
Proof. by vm_compute. Qed.


Lemma every_row_is_reached_witness :
  reached (events (processProducts accept_all sample_categories
                     (columnMap sample_headers) [] [widget; gadget; radio]))
  = seq 2 3.
Proof.
  apply (every_row_is_reached accept_all sample_categories (columnMap sample_headers)
           [] [widget; gadget; radio]).
  - discriminate.
  - vm_compute. reflexivity.
Defined.

Lemma report_means_all_inserted_witness :
  [widget; widget] ≠ [] /\
  [("success", JBool true); ("message", JString "Successfully uploaded 2 products")]
  = success_report 2 /\
  (Rollback ∉ events (processProducts accept_all sample_categories
                        (columnMap sample_headers) [] [widget; widget])) /\
  exists added,
    store (processProducts accept_all sample_categories
             (columnMap sample_headers) [] [widget; widget])
    = ([] ++ added)%list /\
    length added = 2.
Proof.
  apply (report_means_all_inserted accept_all sample_categories
           (columnMap sample_headers) [] [widget; widget]).
  vm_compute. reflexivity.
Defined.

Lemma upload_runs_import_witness :
  ([] = products_table (sample_upload [gadget_cells]) /\
   [Begin; SelectCategories; ProcessingRow 2; Rollback; Rollback; Release]
   = statements (sample_upload [gadget_cells]) /\
   (400 = 400 \/ 400 = 500)) \/
  (exists filePath productData,
     Some sample_path = Some filePath /\
     has_data (sample_upload [gadget_cells]) filePath productData /\
     [] = store (import_of accept_all sample_categories (sample_upload [gadget_cells])
                   productData) /\
     [Begin; SelectCategories; ProcessingRow 2; Rollback; Rollback; Release]
     = (statements (sample_upload [gadget_cells])
          ++ events (import_of accept_all sample_categories
                       (sample_upload [gadget_cells]) productData))%list /\
     error_response 400
       "No valid products found. Errors: Row 2: Price must be a number greater than 0"
     = respond (outcome (import_of accept_all sample_categories
                           (sample_upload [gadget_cells]) productData))).
Proof.
  apply (upload_runs_import_only_on_data accept_all sample_categories
           (Some sample_path) (sample_upload [gadget_cells])
           (World ∅ [] [Begin; SelectCategories; ProcessingRow 2;
                        Rollback; Rollback; Release])
           (error_response 400
              "No valid products found. Errors: Row 2: Price must be a number greater than 0")).
  vm_compute. reflexivity.
Defined.

Lemma upload_200_witness :
  exists filePath productData added,
    Some sample_path = Some filePath /\
    has_data (sample_upload [widget_cells]) filePath productData /\
    [("success", JBool true); ("message", JString "Successfully uploaded 1 products")]
    = success_report (length productData) /\
    [Db.Row "Widget" 1 (Js.Finite 999 (-2)) (Js.Finite 5 0)]
    = (products_table (sample_upload [widget_cells]) ++ added)%list /\
    length added = length productData.
Proof.
  apply (upload_200_means_all_inserted accept_all sample_categories
           (Some sample_path) (sample_upload [widget_cells])
           (World ∅ [Db.Row "Widget" 1 (Js.Finite 999 (-2)) (Js.Finite 5 0)]
                  [Begin; SelectCategories; ProcessingRow 2;
                   Insert (Db.Row "Widget" 1 (Js.Finite 999 (-2)) (Js.Finite 5 0)) true;
                   Commit; Release])
           (Response 200 [("success", JBool true);
                          ("message", JString "Successfully uploaded 1 products")])).
  - vm_compute. reflexivity.
  - reflexivity.
Defined.

Lemma upload_400_after_commit_witness :
  exists n errs added,
    0 < n /\ errs ≠ [] /\
    [("error", JString ("Uploaded 1 products with 1 errors: "
                          ++ "Row 3: Price must be a number greater than 0"))]
    = [("error", JString (partial_message n errs))] /\
    [Db.Row "Widget" 1 (Js.Finite 999 (-2)) (Js.Finite 5 0)]
    = (products_table (sample_upload [widget_cells; gadget_cells]) ++ added)%list /\
    length added = n.
Proof.
  apply (upload_400_after_commit accept_all sample_categories
           (Some sample_path) (sample_upload [widget_cells; gadget_cells])
           (World ∅ [Db.Row "Widget" 1 (Js.Finite 999 (-2)) (Js.Finite 5 0)]
                  [Begin; SelectCategories; ProcessingRow 2;
                   Insert (Db.Row "Widget" 1 (Js.Finite 999 (-2)) (Js.Finite 5 0)) true;
                   ProcessingRow 3; Commit; Rollback; Release])
           (error_response 400
              ("Uploaded 1 products with 1 errors: "
                 ++ "Row 3: Price must be a number greater than 0"))).
  - vm_compute. reflexivity.
  - reflexivity.
  - simpl. discriminate.
Defined.


Lemma blank_numeric_cells_witness :
  getStock (columnMap sample_headers) (properties stockless_cells) = Js.Finite 0 0 /\
  sent (trace (process_row accept_all sample_categories (columnMap sample_headers)
                 0 (properties stockless_cells) (entry [])))
  = [Db.Row "Saw" 1 (Js.Finite 12 0) (Js.Finite 0 0)].
Proof.
  destruct (blank_numeric_cells accept_all sample_categories (columnMap sample_headers)
              0 (properties stockless_cells) (entry [])) as [_ H].
  - vm_compute. discriminate.
  - vm_compute. discriminate.
  - apply (H eq_refl eq_refl eq_refl 1%Z). vm_compute. reflexivity.
Defined.

Lemma max_bound (ids : list Z) (x : Z) : x ∈ ids -> (x <= foldr Z.max 0 ids)%Z.
Proof.
  induction ids as [|y ids IH]; [by intros ?%not_elem_of_nil|].
  intros [-> | Hin]%elem_of_cons; simpl; [lia|].
  specialize (IH Hin). lia.
Qed.

Lemma sample_engine_fresh : fresh_ids sample_engine.
Proof.
  intros db Hin. simpl in Hin. apply max_bound in Hin. lia.
Qed.

Lemma sample_shop_invariants :
  unique_ids sample_shop /\ unique_names sample_shop /\ referential sample_shop.
Proof.
  split_and!.
  - unfold unique_ids. simpl. by repeat (constructor; [not_in_list|]); constructor.
  - unfold unique_names. simpl. by repeat (constructor; [not_in_list|]); constructor.
  - intros p Hp. apply list_elem_of_singleton in Hp as ->.
    eexists. split; [by left | done].
Qed.

(** a run of requests: a name that is taken in another case, a
    new category, a renaming, a product, and the deletion of a category in
    use *)
Example sample_requests_run :
  handle_all sample_engine
    [PostCategory (Req.Str "TOOLS") Req.Absent;
     PostCategory (Req.Str "Books") (Req.Str "");
     PutCategory "2" (Req.Str "Games") Req.Null;
     PostProduct (Req.Str "Chess") (Req.Num (Js.Finite 2 0)) (Req.Str "15") (Req.Num (Js.Finite 3 0));
     DeleteCategory "2"]
    sample_shop
  = Shop.Database
      [Shop.Category 1 "Tools" None; Shop.Category 2 "Games" None;
       Shop.Category 3 "Books" None]
      [Shop.Product 1 "Hammer" 1 (Some "9.99") (Some "5");
       Shop.Product 2 "Chess" 2 (Some "15") (Some "3")].
Proof. by vm_compute. Qed.

Lemma error_reply_witness :
  (handle sample_engine (DeleteCategory "1") sample_shop).2 = sample_shop.
Proof.
  apply (error_reply_changes_nothing sample_engine (DeleteCategory "1") sample_shop).
  vm_compute. lia.
Defined.

Lemma category_names_witness :
  unique_ids (handle_all sample_engine
                [PostCategory (Req.Str "TOOLS") Req.Absent;
                 PostCategory (Req.Str "Books") (Req.Str "");
                 PutCategory "2" (Req.Str "Games") Req.Null]
                sample_shop) /\
  unique_names (handle_all sample_engine
                  [PostCategory (Req.Str "TOOLS") Req.Absent;
                   PostCategory (Req.Str "Books") (Req.Str "");
                   PutCategory "2" (Req.Str "Games") Req.Null]
                  sample_shop).
Proof.
  apply (category_names_stay_unique sample_engine).
  - apply sample_engine_fresh.
  - apply sample_shop_invariants.
  - apply sample_shop_invariants.
Defined.

Lemma references_witness :
  referential (handle_all sample_engine
                 [PostProduct (Req.Str "Chess") (Req.Num (Js.Finite 2 0))
                              (Req.Str "15") (Req.Num (Js.Finite 3 0));
                  DeleteCategory "2"; DeleteCategory "1"]
                 sample_shop).
Proof.
  apply (references_stay_valid sample_engine). apply sample_shop_invariants.
Defined.

Lemma unparsable_numbers_witness :
  product_input_error (Req.Str "Nail") (Req.Str "1") (Req.Str "cheap") Req.Null = None /\
  create_product sample_engine (Req.Str "Nail") (Req.Str "1") (Req.Str "cheap") Req.Null
                 sample_shop
  = (Shop.Reply 201 (Shop.ProductRow (Shop.Product 2 "Nail" 1 (Some "cheap") None)),
     Shop.Database (Shop.categories sample_shop)
       (Shop.products sample_shop
          ++ [Shop.Product 2 "Nail" 1 (Some "cheap") None])%list).
Proof.
  apply (unparsable_numbers_reach_database sample_engine
           (Req.Str "Nail") (Req.Str "1") (Req.Str "cheap") Req.Null sample_shop 1%Z);
    try (vm_compute; reflexivity); try discriminate.
  exists (Shop.Category 1 "Tools" None). split; [by left | done].
Defined.

Lemma delete_category_guard_witness :
  delete_category sample_engine "1" sample_shop
  = (Shop.Reply 400
       (Shop.Failure "Cannot delete category because it has associated products"),
     sample_shop).
Proof.
  destruct (delete_category_guard sample_engine "1" sample_shop 1%Z) as [H _].
  - vm_compute. reflexivity.
  - apply H. eexists. split; [by left | done].
Defined.

(** ** Resolving under unique names *)

Lemma filter_none {A : Type} (P : A -> Prop) `{forall x, Decision (P x)} (l : list A) :
  (forall x, x ∈ l -> ~ P x) -> filter P l = [].
Proof.
  induction l as [|x l IH]; [done|]. intros Hnone.
  rewrite filter_cons_False by (apply Hnone; by left).
  apply IH. intros y Hy. apply Hnone. by right.
Qed.

Lemma filter_unique_name (categories : list category) (cat : category) :
  NoDup ((fun c => Js.toLowerCase (category_name c)) <$> categories) ->
  cat ∈ categories ->
  filter (fun c => Js.toLowerCase (category_name c)
                   = Js.toLowerCase (category_name cat)) categories = [cat].
Proof.
  induction categories as [|c cats IH]; [by intros _ ?%not_elem_of_nil|].
  rewrite fmap_cons. intros [Hc Hcats]%NoDup_cons [-> | Hin]%elem_of_cons.
  - rewrite filter_cons_True by done. f_equal.
    apply (filter_none (fun y => Js.toLowerCase (category_name y)
                                 = Js.toLowerCase (category_name c))).
    intros y Hy Heq. apply Hc. rewrite <- Heq.
    by apply (list_elem_of_fmap_2 (fun c => Js.toLowerCase (category_name c))).
  - rewrite filter_cons_False; [by apply IH|].
    intros Heq. apply Hc. rewrite Heq.
    by apply (list_elem_of_fmap_2 (fun c => Js.toLowerCase (category_name c))).
Qed.


(** ** The same sheet twice *)

Section Twice.

Variable insert_error : list Db.row -> Db.row -> option string.
Variable categories : list category.
Variable columnMap : gmap string string.
Hypothesis Hblind : table_blind insert_error.

Abbreviation step := (process_row insert_error categories columnMap).
Abbreviation steps := (process_rows insert_error categories columnMap).

Lemma process_row_retable (table : list Db.row) (i : nat)
    (product : gmap string Js.value) (st : state) (w : list Db.row) :
  Db.txn (client st) = Some w ->
  step i product (retable table st) = retable table (step i product st).
Proof.
  intros Htx. destruct st as [[t x] e n tr]. simpl in Htx. subst x.
  unfold process_row, retable. simpl.
  repeat case_match; try done.
  unfold insert_product, Db.insert, Db.visible. simpl.
  rewrite (Hblind (table ++ w)%list (t ++ w)%list).
  by destruct (insert_error _ _).
Qed.

Lemma process_rows_retable (table : list Db.row)
    (products : list (gmap string Js.value)) :
  forall (i : nat) (st : state) (w : list Db.row),
    Db.txn (client st) = Some w ->
    steps i products (retable table st) = retable table (steps i products st).
Proof.
  induction products as [|product rest IH]; intros i st w Htx; simpl; [done|].
  rewrite (process_row_retable _ _ _ _ w) by done.
  destruct (turn_open _ _ _ _ Htx
              (process_row_turn insert_error categories columnMap i product st w Htx))
    as [w' Htx'].
  by apply (IH _ _ w').
Qed.

(** What a call does, and how it ends, does not depend on the table. *)
Lemma processProducts_retable (table table' : list Db.row)
    (products : list (gmap string Js.value)) :
  outcome (processProducts insert_error categories columnMap table' products)
  = outcome (processProducts insert_error categories columnMap table products) /\
  events (processProducts insert_error categories columnMap table' products)
  = events (processProducts insert_error categories columnMap table products).
Proof.
  destruct categories as [|cat cats] eqn:Hcats; [done|].
  destruct (missingFields columnMap) as [|f fs] eqn:Hmiss.
  2:{ unfold processProducts, try_block. by rewrite Hmiss. }
  rewrite !(processProducts_loop insert_error (cat :: cats) columnMap) by done.
  change (entry table') with (retable table' (entry table)).
  rewrite <- Hcats.
  rewrite (process_rows_retable table' products 0 (entry table) []) by done.
  unfold decide_outcome. simpl.
  destruct (_ && _); [done|]. by destruct (_ =? _)%nat.
Qed.


End Twice.


Lemma accept_all_blind : table_blind accept_all.
Proof. by intros seen seen' r. Qed.

